(** * chectl: the Helm installer ([src/installers/helm.ts])

    A shallow embedding of [HelmHelper]: the task pipeline returned by
    [startTasks], the idempotent Tiller provisioning helpers, chart staging and
    the upgrade with its purge-or-rollback recovery.

    External processes, the cluster client, the file system and the JavaScript
    runtime are interfaces ([Platform], [JsRuntime]); the methods of the class
    are written in a state-and-exception monad over the platform's world. *)

From Stdlib Require Import ZArith Ascii.
From stdpp Require Import base option list strings pretty gmap.

Set Warnings "-register-all".
Local Open Scope Z_scope.

(** ** JavaScript values *)

(** The values [JSON.parse] can return, and [undefined]. An object carries its
    own properties, each name once. The installer never computes with a number;
    it is kept as an integer. *)
Inductive jsval : Type :=
| JUndefined
| JNull
| JBool (b : bool)
| JNumber (n : Z)
| JString (s : string)
| JArray (items : list jsval)
| JObject (props : list (string * jsval)).

(** What [execa] reports as the [code] of a result: the exit code of the
    process, [null] when a signal ended it, or the name of the error (such as
    [ENOENT]) when the process could not be started. *)
Inductive exit_code : Type :=
| Exited (n : Z)
| NoCode
| CodeName (name : string).

(** The result record of [execa]. *)
Record CommandResult : Type := mkResult {
  cmd : string;
  result_code : exit_code;
  stdout : string;
  stderr : string;
  timedOut : bool
}.

(** The [code] of a result as a number, for the comparisons with 0: [None]
    where it is not a number. *)
Definition code (r : CommandResult) : option Z :=
  match result_code r with
  | Exited n => Some n
  | NoCode | CodeName _ => None
  end.

(** What can be thrown. *)
Inductive exn : Type :=
| Error (message : string)        (* [new Error(message)] *)
| TypeError (message : string)    (* property access on [null] or [undefined] *)
| CLIError (message : string)     (* [command.error(message)] *)
| ExecaError (r : CommandResult)  (* a rejected [execa] promise *)
| External (message : string).    (* failure of the cluster client or the file system *)

Inductive Result (A : Type) : Type :=
| Ok (a : A)
| Throw (e : exn).
Arguments Ok {A} a.
Arguments Throw {A} e.

(** A process started through [execa(file, args, opts)] or
    [execa.shell(command, opts)], with the timeout it is given. *)
Inductive Invocation : Type :=
| Execa (file : string) (args : list jsval) (timeout : Z)
| ExecaShell (command : string) (timeout : Z).

(** A call [ncp(source, dest, {}, callback)] whose copy is still running. *)
Record NcpCall : Type := mkNcp { ncp_source : string; ncp_dest : string }.

(** A node of the file system: a file with its bytes, or a directory. *)
Inductive fsnode : Type :=
| File (content : string)
| Dir.

(** [p] lies in the tree rooted at [d]: the path of a directory ends with its
    separator, so these are the paths that start with [d]. *)
Definition under (d p : string) : Prop := exists rel, p = d +:+ rel.

(** ** Interfaces of the collaborators *)

(** The parts of the JavaScript runtime the installer calls. [js_gt0 v] is the
    comparison [v > 0] with its coercion of [v] to a number. *)
Class JsRuntime : Type := {
  JSON_parse : string -> string + jsval;   (* [inl] is the SyntaxError, as text *)
  path_join : string -> string -> string;
  js_gt0 : jsval -> bool
}.

(** The outside world: processes, the cluster client ([KubeHelper]), the tool
    lookup and the file system. *)
Class Platform (W : Type) : Type := {
  spawn : Invocation -> W -> CommandResult * W;
  commandExists_sync : string -> W -> bool;
  secretExist : string -> W -> Result bool * W;
  getSecret : string -> W -> Result (option string) * W;
  apiVersionExist : string -> W -> Result bool * W;
  readFileSync : string -> W -> Result string;
  mkdirp : string -> W -> Result unit * W;
  ncp_copy : string -> string -> W -> option exn * W;
  fs_read : W -> string -> option fsnode
}.

(** What staging relies on from the tools it calls: each writes only where it
    is pointed. [mkdirp d] creates [d] and the directories on the way to it;
    the copy writes under its destination; the dependency update writes under
    the chart directory it is given. *)
Class WritesWhereTold (W : Type) `{!Platform W} : Prop := {
  mkdirp_frame : forall d w p,
    ~ (exists rest, d = p +:+ rest) -> fs_read (mkdirp d w).2 p = fs_read w p;
  ncp_copy_frame : forall source dest w p,
    ~ under dest p -> fs_read (ncp_copy source dest w).2 p = fs_read w p;
  dependencies_frame : forall dir t w p,
    ~ under dir p ->
    fs_read (spawn (ExecaShell ("helm dependencies update --skip-refresh " +:+ dir) t) w).2 p
    = fs_read w p
}.

(** ** The monad of the installer *)

Section Installer.

Context {W : Type} `{!Platform W} `{!JsRuntime}.

(** The state every step sees: the world, the shared pipeline context, the
    titles of the tasks, the processes run so far with their results, and the
    copies started by [ncp] whose callback has not run yet. *)
Record PState : Type := mkState {
  world : W;
  ctx : gmap string string;
  titles : list string;
  trace : list (Invocation * CommandResult);
  pending : list NcpCall
}.

Definition M (A : Type) : Type := PState -> Result A * PState.

Definition ret {A} (a : A) : M A := fun st => (Ok a, st).

Definition throw {A} (e : exn) : M A := fun st => (Throw e, st).

Definition bind {A B} (m : M A) (k : A -> M B) : M B := fun st =>
  match m st with
  | (Ok a, st') => k a st'
  | (Throw e, st') => (Throw e, st')
  end.

Notation "x <- c1 ;; c2" := (bind c1 (fun x => c2))
  (at level 100, c1 at next level, right associativity).
Notation "c1 ;; c2" := (bind c1 (fun _ => c2))
  (at level 100, right associativity).

Definition set_world (w : W) (st : PState) : PState :=
  mkState w (ctx st) (titles st) (trace st) (pending st).

Definition set_ctx (c : gmap string string) (st : PState) : PState :=
  mkState (world st) c (titles st) (trace st) (pending st).

Definition set_titles (t : list string) (st : PState) : PState :=
  mkState (world st) (ctx st) t (trace st) (pending st).

Definition log_process (inv : Invocation) (r : CommandResult) (st : PState) : PState :=
  mkState (world st) (ctx st) (titles st) (trace st ++ [(inv, r)]) (pending st).

Definition add_pending (c : NcpCall) (st : PState) : PState :=
  mkState (world st) (ctx st) (titles st) (trace st) (pending st ++ [c]).

(** Lifting of a call into the world. *)
Definition call {A} (f : W -> Result A * W) : M A := fun st =>
  let '(r, w) := f (world st) in (r, set_world w st).

(** [ctx.key]: the value, or [undefined]. *)
Definition ctx_get (key : string) : M (option string) := fun st =>
  (Ok (ctx st !! key), st).

(** [ctx.key = v] *)
Definition ctx_set (key v : string) : M unit := fun st =>
  (Ok tt, set_ctx (<[key := v]> (ctx st)) st).

(** [task.title = `${task.title}suffix`] for the task with handle [task]. *)
Definition append_title (task : nat) (suffix : string) : M unit := fun st =>
  (Ok tt, set_titles (alter (fun t => t +:+ suffix) task (titles st)) st).

(** ** execa *)

Record ExecaOptions : Type := mkOpts { timeout : Z; reject : bool }.

(** [code === 0] *)
Definition code_is_0 (r : CommandResult) : bool := bool_decide (code r = Some 0).

(** What makes [execa] reject when [reject] is not switched off. *)
Definition execa_failed (r : CommandResult) : bool :=
  negb (code_is_0 r) || timedOut r.

Definition run_process (inv : Invocation) (rej : bool) : M CommandResult := fun st =>
  let '(r, w) := spawn inv (world st) in
  let st' := log_process inv r (set_world w st) in
  if rej && execa_failed r then (Throw (ExecaError r), st') else (Ok r, st').

Definition execa_v (file : string) (args : list jsval) (o : ExecaOptions) : M CommandResult :=
  run_process (Execa file args (timeout o)) (reject o).

Definition execa (file : string) (args : list string) (o : ExecaOptions) : M CommandResult :=
  execa_v file (JString <$> args) o.

Definition execa_shell (command : string) (o : ExecaOptions) : M CommandResult :=
  run_process (ExecaShell command (timeout o)) (reject o).

(** ** Existence checks and creation of the Tiller resources *)

Definition tillerRoleBindingExist (execTimeout : Z) : M bool :=
  r <- execa "kubectl" ["get"; "clusterrolebinding"; "add-on-cluster-admin"]
             (mkOpts execTimeout false) ;;
  if code_is_0 r then ret true else ret false.

Definition createTillerRoleBinding (execTimeout : Z) : M unit :=
  execa "kubectl" ["create"; "clusterrolebinding"; "add-on-cluster-admin";
                   "--clusterrole=cluster-admin";
                   "--serviceaccount=kube-system:default"]
        (mkOpts execTimeout true) ;;
  ret tt.

Definition tillerServiceAccountExist (execTimeout : Z) : M bool :=
  r <- execa "kubectl" ["get"; "serviceaccounts"; "tiller"; "--namespace"; "kube-system"]
             (mkOpts execTimeout false) ;;
  if code_is_0 r then ret true else ret false.

Definition createTillerServiceAccount (execTimeout : Z) : M unit :=
  execa "kubectl" ["create"; "serviceaccount"; "tiller"; "--namespace"; "kube-system"]
        (mkOpts execTimeout true) ;;
  ret tt.

Definition tillerServiceExist (execTimeout : Z) : M bool :=
  r <- execa "kubectl" ["get"; "services"; "tiller-deploy"; "-n"; "kube-system"]
             (mkOpts execTimeout false) ;;
  if code_is_0 r then ret true else ret false.

(** ** Text helpers *)

Definition dquote : string := String (ascii_of_nat 34) EmptyString.
Definition nl : string := String (ascii_of_nat 10) EmptyString.

(** [`${code}`] for the code of a result. *)
Definition code_text (c : exit_code) : string :=
  match c with
  | Exited z => pretty z
  | NoCode => "null"
  | CodeName name => name
  end.

(** [`${v}`] for a context value that may be absent. *)
Definition template_text (v : option string) : string :=
  match v with
  | Some s => s
  | None => "undefined"
  end.

Definition createTillerRBAC (templatesPath : string) (execTimeout : Z) : M unit :=
  let yamlPath := path_join templatesPath "/kubernetes/helm/che/tiller-rbac.yaml" in
  yamlContent <- call (fun w => (readFileSync yamlPath w, w)) ;;
  let command := "echo " +:+ dquote +:+ yamlContent +:+ dquote +:+ " | kubectl apply -f -" in
  execa_shell command (mkOpts execTimeout true) ;;
  ret tt.

Definition createTillerService (execTimeout : Z) : M unit :=
  r <- execa "helm" ["init"; "--service-account"; "tiller"; "--wait"]
             (mkOpts execTimeout false) ;;
  if timedOut r then
    throw (Error ("Command " +:+ dquote +:+ cmd r +:+ dquote +:+ " timed out after "
                  +:+ pretty execTimeout +:+ "ms" +:+ nl
                  +:+ "stderr: " +:+ stderr r +:+ nl
                  +:+ "stdout: " +:+ stdout r +:+ nl
                  +:+ "error: E_TIMEOUT"))
  else if negb (code_is_0 r) then
    throw (Error ("Command " +:+ dquote +:+ cmd r +:+ dquote +:+ " failed with return code "
                  +:+ code_text (result_code r) +:+ nl
                  +:+ "stderr: " +:+ stderr r +:+ nl
                  +:+ "stdout: " +:+ stdout r +:+ nl
                  +:+ "error: E_COMMAND_FAILED"))
  else ret tt.

(** ** Configuration *)

(** The flags of the command line the installer reads ([listr-renderer] only
    selects how Listr draws the tasks). *)
Record Flags : Type := mkFlags {
  tls : bool;
  multiuser : bool;
  templates : string;
  chenamespace : string;
  domain : string;
  cheimage : string;
  devfile_registry_url : string;
  plugin_registry_url : string
}.

(** ** Chart staging *)

(** [ncp(source, dest, {}, callback)] starts the copy and returns [undefined]
    at once; the callback runs when the copy has ended. *)
Definition ncp (source dest : string) : M unit := fun st =>
  (Ok tt, add_pending (mkNcp source dest) st).

(** The callback given to [ncp]: [(err) => { if (err) { throw err } }]. *)
Definition ncp_callback (err : option exn) : Result unit :=
  match err with
  | Some e => Throw e
  | None => Ok tt
  end.

(** The event loop finishing a pending copy: the copy happens in the world and
    the callback receives its error. What the callback throws is thrown into
    the event loop, where no caller of the installer waits for it. *)
Definition complete_copy (c : NcpCall) (st : PState) : Result unit * PState :=
  let '(err, w) := ncp_copy (ncp_source c) (ncp_dest c) (world st) in
  (ncp_callback err, set_world w st).

Definition chart_srcDir (flags : Flags) : string :=
  path_join (templates flags) "/kubernetes/helm/che/".

Definition chart_destDir (cacheDir : string) : string :=
  path_join cacheDir "/templates/kubernetes/helm/che/".

Definition prepareCheHelmChart (flags : Flags) (cacheDir : string) : M unit :=
  let srcDir := chart_srcDir flags in
  let destDir := chart_destDir cacheDir in
  call (mkdirp destDir) ;;
  ncp srcDir destDir.

Definition dependencies_command (destDir : string) : string :=
  "helm dependencies update --skip-refresh " +:+ destDir.

Definition updateCheHelmChartDependencies (cacheDir : string) (execTimeout : Z) : M unit :=
  let destDir := chart_destDir cacheDir in
  execa_shell (dependencies_command destDir) (mkOpts execTimeout true) ;;
  ret tt.

(** ** Deployment and recovery *)

Definition multiUserFlag (flags : Flags) (destDir : string) : string :=
  if multiuser flags then "-f " +:+ destDir +:+ "values/multi-user.yaml" else "".

Definition tlsFlag (flags : Flags) (destDir : string) : string :=
  if tls flags then "-f " +:+ destDir +:+ "values/tls.yaml" else "".

Definition setOptions (tlsEmail : option string) (flags : Flags) : string :=
  if tls flags then
    "--set global.cheDomain=" +:+ domain flags
    +:+ " --set global.tls.email='" +:+ template_text tlsEmail +:+ "'"
  else "".

Definition upgrade_command (tlsEmail : option string) (flags : Flags) (destDir : string) : string :=
  "helm upgrade --install che --force --namespace " +:+ chenamespace flags
  +:+ " --set global.ingressDomain=" +:+ domain flags
  +:+ " " +:+ setOptions tlsEmail flags
  +:+ " --set cheImage=" +:+ cheimage flags
  +:+ " --set global.cheWorkspacesNamespace=" +:+ chenamespace flags
  +:+ " --set che.workspace.devfileRegistryUrl=" +:+ devfile_registry_url flags
  +:+ " --set che.workspace.pluginRegistryUrl=" +:+ plugin_registry_url flags
  +:+ " " +:+ multiUserFlag flags destDir
  +:+ " " +:+ tlsFlag flags destDir
  +:+ " " +:+ destDir.

Definition history_command (flags : Flags) : string :=
  "helm history " +:+ chenamespace flags +:+ " --output json".

Fixpoint own_property (key : string) (props : list (string * jsval)) : option jsval :=
  match props with
  | [] => None
  | (k, v) :: rest => if String.eqb k key then Some v else own_property key rest
  end.

(** [v[0]] *)
Definition index0 (v : jsval) : Result jsval :=
  match v with
  | JUndefined => Throw (TypeError "Cannot read property '0' of undefined")
  | JNull => Throw (TypeError "Cannot read property '0' of null")
  | JBool _ | JNumber _ => Ok JUndefined
  | JString EmptyString => Ok JUndefined
  | JString (String c _) => Ok (JString (String c EmptyString))
  | JArray [] => Ok JUndefined
  | JArray (x :: _) => Ok x
  | JObject props => Ok (default JUndefined (own_property "0" props))
  end.

(** [v.revision] *)
Definition get_revision (v : jsval) : Result jsval :=
  match v with
  | JUndefined => Throw (TypeError "Cannot read property 'revision' of undefined")
  | JNull => Throw (TypeError "Cannot read property 'revision' of null")
  | JObject props => Ok (default JUndefined (own_property "revision" props))
  | _ => Ok JUndefined
  end.

(** [v.length > 0] *)
Definition length_gt0 (v : jsval) : bool :=
  match v with
  | JArray items => bool_decide (items <> [])
  | JString s => bool_decide (s <> "")
  | JObject props => js_gt0 (default JUndefined (own_property "length" props))
  | _ => false
  end.

(** [v === '1'] *)
Definition is_string_1 (v : jsval) : bool :=
  match v with
  | JString s => String.eqb s "1"
  | _ => false
  end.

Definition lift {A} (r : Result A) : M A := fun st => (r, st).

Definition purgeHelmChart (name : string) (execTimeout : Z) : M unit :=
  execa "helm" ["delete"; name; "--purge"] (mkOpts execTimeout false) ;;
  ret tt.

Definition rollback_invocation (flags : Flags) (revision : jsval) (execTimeout : Z) : Invocation :=
  Execa "helm" [JString "rollback"; JString (chenamespace flags); revision] execTimeout.

Definition upgradeCheHelmChart (flags : Flags) (cacheDir : string) (execTimeout : Z) : M unit :=
  let destDir := chart_destDir cacheDir in
  tlsEmail <- ctx_get "tlsEmail" ;;
  let command := upgrade_command tlsEmail flags destDir in
  r <- execa_shell command (mkOpts execTimeout false) ;;
  if negb (code_is_0 r) then
    h <- execa_shell (history_command flags) (mkOpts execTimeout false) ;;
    if negb (code_is_0 h) then
      throw (Error ("Unable to execute helm command " +:+ command +:+ " / " +:+ stderr r))
    else
      match JSON_parse (stdout h) with
      | inl err => throw (Error ("Unable to grab helm history:" +:+ err))
      | inr jsonOutput =>
          first <- lift (index0 jsonOutput) ;;
          revision <- lift (get_revision first) ;;
          (if length_gt0 jsonOutput && is_string_1 revision then
             purgeHelmChart (chenamespace flags) 30000
           else
             run_process (rollback_invocation flags revision execTimeout) true ;;
             ret tt) ;;
          execa_shell command (mkOpts execTimeout true) ;;
          ret tt
      end
  else ret tt.

(** ** The task pipeline *)

(** A task of the list given to Listr: its title, whether it is enabled, and
    its body, which receives the handle of its own task object. *)
Record Step : Type := mkStep {
  step_title : string;
  enabled : bool;
  task : nat -> M unit
}.

Definition tls_secret_missing : string :=
  "TLS option is enabled but che-tls secret does not exist in default namespace. Example on how to create the secret: kubectl create secret generic che-tls --from-literal=ACME_EMAIL=my@email-address.com".

Definition tls_email_missing : string :=
  "TLS option is enabled and che-tls secret is defined but there is no ACME_EMAIL field on this secret. Example on how to create the secret: kubectl create secret generic che-tls --from-literal=ACME_EMAIL=my@email-address.com".

Definition cert_manager_missing : string :=
  "TLS option is enabled but cert-manager API has not been found. Cert Manager is probably not installed. Example on how to install it:" +:+ nl
  +:+ "            $ kubectl create namespace cert-manager" +:+ nl
  +:+ "            $ kubectl label namespace cert-manager certmanager.k8s.io/disable-validation=true" +:+ nl
  +:+ "            $ kubectl apply -f https://github.com/jetstack/cert-manager/releases/download/v0.8.1/cert-manager.yaml --validate=false" +:+ nl
  +:+ nl
  +:+ "            Please install cert-manager.".

Definition verify_helm_task (_ : nat) : M unit := fun st =>
  if commandExists_sync "helm" (world st) then (Ok tt, st)
  else (Throw (CLIError "E_REQUISITE_NOT_FOUND"), st).

Definition tls_secret_task (task : nat) : M unit :=
  exists_ <- call (secretExist "che-tls") ;;
  if negb exists_ then throw (Error tls_secret_missing)
  else
    tlsEmail <- call (getSecret "che-tls") ;;
    match tlsEmail with
    | None => throw (Error tls_email_missing)
    | Some email =>
        ctx_set "tlsEmail" email ;;
        append_title task "...che-tls secret found."
    end.

Definition cert_manager_task (task : nat) : M unit :=
  exists_ <- call (apiVersionExist "certmanager.k8s.io") ;;
  if negb exists_ then throw (Error cert_manager_missing)
  else append_title task "...done".

Definition role_binding_task (task : nat) : M unit :=
  roleBindingExist <- tillerRoleBindingExist 30000 ;;
  if roleBindingExist : bool then append_title task "...it already exist."
  else createTillerRoleBinding 30000 ;; append_title task "...done.".

Definition service_account_task (task : nat) : M unit :=
  serviceAccountExist <- tillerServiceAccountExist 30000 ;;
  if serviceAccountExist : bool then append_title task "...it already exist."
  else createTillerServiceAccount 120000 ;; append_title task "...done.".

Definition rbac_task (flags : Flags) (_ : nat) : M unit :=
  createTillerRBAC (templates flags) 30000.

Definition service_task (task : nat) : M unit :=
  serviceExist <- tillerServiceExist 30000 ;;
  if serviceExist : bool then append_title task "...it already exist."
  else createTillerService 120000 ;; append_title task "...done.".

Definition prepare_task (flags : Flags) (cacheDir : string) (task : nat) : M unit :=
  prepareCheHelmChart flags cacheDir ;;
  append_title task "...done.".

Definition dependencies_task (cacheDir : string) (task : nat) : M unit :=
  updateCheHelmChartDependencies cacheDir 120000 ;;
  append_title task "...done.".

Definition deploy_task (flags : Flags) (cacheDir : string) (task : nat) : M unit :=
  upgradeCheHelmChart flags cacheDir 120000 ;;
  append_title task "...done.".

(** The list [startTasks] hands to Listr; [cacheDir] is
    [command.config.cacheDir]. *)
Definition startTasks (flags : Flags) (cacheDir : string) : list Step :=
  [ mkStep "Verify if helm is installed" true verify_helm_task;
    mkStep "Check for TLS secret prerequisites" (tls flags) tls_secret_task;
    mkStep "Check for cert-manager" (tls flags) cert_manager_task;
    mkStep "Create Tiller Role Binding" true role_binding_task;
    mkStep "Create Tiller Service Account" true service_account_task;
    mkStep "Create Tiller RBAC" true (rbac_task flags);
    mkStep "Create Tiller Service" true service_task;
    mkStep "Preparing Che Helm Chart" true (prepare_task flags cacheDir);
    mkStep "Updating Helm Chart dependencies" true (dependencies_task cacheDir);
    mkStep "Deploying Che Helm Chart" true (deploy_task flags cacheDir) ].

(** One task as Listr runs it: skipped when it is not enabled. *)
Definition run_step (i : nat) (s : Step) : M unit :=
  if enabled s then task s i else ret tt.

(** Listr's sequential run: the tasks in order, each with its own handle and
    the one shared context, stopping at the first one that throws. *)
Fixpoint run_from (i : nat) (steps : list Step) : M unit :=
  match steps with
  | [] => ret tt
  | s :: rest => run_step i s ;; run_from (S i) rest
  end.

Definition run_tasks (steps : list Step) : M unit := fun st =>
  run_from 0 steps (set_titles (step_title <$> steps) st).

(** ** Vocabulary of the properties *)

(** The answer of the world to a process, and the state once it has run. *)
Definition answer (inv : Invocation) (st : PState) : CommandResult :=
  (spawn inv (world st)).1.

Definition after_process (inv : Invocation) (st : PState) : PState :=
  log_process inv (spawn inv (world st)).1 (set_world (spawn inv (world st)).2 st).

Definition role_binding_get (t : Z) : Invocation :=
  Execa "kubectl" [JString "get"; JString "clusterrolebinding"; JString "add-on-cluster-admin"] t.

Definition service_account_get (t : Z) : Invocation :=
  Execa "kubectl" [JString "get"; JString "serviceaccounts"; JString "tiller";
                   JString "--namespace"; JString "kube-system"] t.

Definition service_get (t : Z) : Invocation :=
  Execa "kubectl" [JString "get"; JString "services"; JString "tiller-deploy";
                   JString "-n"; JString "kube-system"] t.

(** The processes of the deployment, as [upgradeCheHelmChart] starts them. *)
Definition upgrade_invocation (flags : Flags) (cacheDir : string) (t : Z) (st : PState)
    : Invocation :=
  ExecaShell (upgrade_command (ctx st !! "tlsEmail") flags (chart_destDir cacheDir)) t.

Definition history_invocation (flags : Flags) (t : Z) : Invocation :=
  ExecaShell (history_command flags) t.

Definition purge_invocation (flags : Flags) : Invocation :=
  Execa "helm" [JString "delete"; JString (chenamespace flags); JString "--purge"] 30000.

(** The processes run between two states, with their results, oldest first. *)
Definition events (st st' : PState) : list (Invocation * CommandResult) :=
  drop (length (trace st)) (trace st').

Definition invoked (st st' : PState) : list Invocation := (events st st').*1.

(** The remedy chosen from the parsed history output. *)
Inductive Remedy : Type :=
| Purge
| Rollback (revision : jsval).

Definition remedy_invocation (flags : Flags) (t : Z) (a : Remedy) : Invocation :=
  match a with
  | Purge => purge_invocation flags
  | Rollback revision => rollback_invocation flags revision t
  end.

Definition choose_remedy (jsonOutput : jsval) : Result Remedy :=
  match index0 jsonOutput with
  | Throw e => Throw e
  | Ok first =>
      match get_revision first with
      | Throw e => Throw e
      | Ok revision =>
          Ok (if length_gt0 jsonOutput && is_string_1 revision then Purge
              else Rollback revision)
      end
  end.

(** Whether [execa] rejects for the remedy: the purge never does. *)
Definition remedy_rejects (a : Remedy) (r : CommandResult) : bool :=
  match a with
  | Purge => false
  | Rollback _ => execa_failed r
  end.

(** A computation that leaves the pipeline context as it found it. *)
Definition keeps_ctx {A} (m : M A) : Prop := forall st, ctx (m st).2 = ctx st.

(** The actions of chart staging on the state: the chart is prepared, the copy
    it started ends, the dependencies are updated. *)
Inductive staging_step (flags : Flags) (cacheDir : string) : PState -> PState -> Prop :=
| staging_prepare st :
    staging_step flags cacheDir st (prepareCheHelmChart flags cacheDir st).2
| staging_copy st :
    staging_step flags cacheDir st
      (complete_copy (mkNcp (chart_srcDir flags) (chart_destDir cacheDir)) st).2
| staging_update t st :
    staging_step flags cacheDir st (updateCheHelmChartDependencies cacheDir t st).2.

(** ** Vocabulary of the further properties *)

Definition role_binding_create (t : Z) : Invocation :=
  Execa "kubectl" [JString "create"; JString "clusterrolebinding";
                   JString "add-on-cluster-admin"; JString "--clusterrole=cluster-admin";
                   JString "--serviceaccount=kube-system:default"] t.

Definition service_account_create (t : Z) : Invocation :=
  Execa "kubectl" [JString "create"; JString "serviceaccount"; JString "tiller";
                   JString "--namespace"; JString "kube-system"] t.

Definition tiller_init (t : Z) : Invocation :=
  Execa "helm" [JString "init"; JString "--service-account"; JString "tiller";
                JString "--wait"] t.

Definition dependencies_invocation (cacheDir : string) (t : Z) : Invocation :=
  ExecaShell (dependencies_command (chart_destDir cacheDir)) t.

Definition rbac_invocation (yamlContent : string) (t : Z) : Invocation :=
  ExecaShell ("echo " +:+ dquote +:+ yamlContent +:+ dquote +:+ " | kubectl apply -f -") t.

(** The titles once the task [j] has added [suffix] to its own. *)
Definition annotated (j : nat) (suffix : string) (l : list string) : list string :=
  alter (fun t => t +:+ suffix) j l.

(** A parsed history output from which no revision can be read: it has no
    first element, or its first element is [null]. *)
Definition no_revision (v : jsval) : bool :=
  match v with
  | JUndefined | JNull | JBool _ | JNumber _ => true
  | JString s => bool_decide (s = "")
  | JArray [] => true
  | JArray (JNull :: _) | JArray (JUndefined :: _) => true
  | JArray (_ :: _) => false
  | JObject props =>
      match own_property "0" props with
      | None | Some JNull | Some JUndefined => true
      | Some _ => false
      end
  end.

Definition is_TypeError {A} (r : Result A) : Prop := exists message, r = Throw (TypeError message).

(** The titles [l'] are the titles [l], each with something added at its end. *)
Definition titles_extend (l l' : list string) : Prop :=
  Forall2 (fun t t' => exists suffix, t' = t +:+ suffix) l l'.

Definition keeps_titles {A} (m : M A) : Prop :=
  forall st, titles_extend (titles st) (titles (m st).2).

End Installer.

(** ** Text of the commands *)

(** [m] occurs in [s] as a piece of text. *)
Definition occurs (m s : string) : Prop := exists a b, s = a +:+ m +:+ b.

Fixpoint starts_with (m s : string) : bool :=
  match m, s with
  | EmptyString, _ => true
  | String a m', String b s' => Ascii.eqb a b && starts_with m' s'
  | String _ _, EmptyString => false
  end.

Fixpoint occurs_b (m s : string) : bool :=
  starts_with m s ||
  match s with
  | EmptyString => false
  | String _ s' => occurs_b m s'
  end.

Fixpoint char_in (c : ascii) (m : string) : bool :=
  match m with
  | EmptyString => false
  | String d m' => Ascii.eqb c d || char_in c m'
  end.

(** Pieces of text, each followed by one separating character, and a last
    piece. *)
Fixpoint glue (pieces : list (string * ascii)) (last : string) : string :=
  match pieces with
  | [] => last
  | (p, c) :: rest => p +:+ String c (glue rest last)
  end.

(** The flag groups of the upgrade command, as they appear in it. *)
Definition multi_user_values (destDir : string) : string :=
  "-f " +:+ destDir +:+ "values/multi-user.yaml".

Definition tls_values (destDir : string) : string :=
  "-f " +:+ destDir +:+ "values/tls.yaml".

Definition tls_overrides (flags : Flags) (email : string) : string :=
  "--set global.cheDomain=" +:+ domain flags
  +:+ " --set global.tls.email='" +:+ email +:+ "'".

(** The texts the configuration and the context put into the command. *)
Definition config_texts (tlsEmail : option string) (flags : Flags) (destDir : string)
    : list string :=
  [chenamespace flags; domain flags; cheimage flags; devfile_registry_url flags;
   plugin_registry_url flags; destDir; template_text tlsEmail].

(** The fixed separators of the command. *)
Definition sp : ascii := ascii_of_nat 32.
Definition eq_sign : ascii := ascii_of_nat 61.
Definition quote : ascii := ascii_of_nat 39.
Definition letter_v : ascii := ascii_of_nat 118.

(** The upgrade command cut at its separators, for each setting of the two
    flags. *)
Definition command_head (flags : Flags) : list (string * ascii) :=
  [("helm upgrade --install che --force --namespace", sp); (chenamespace flags, sp);
   ("--set global.ingressDomain", eq_sign); (domain flags, sp)].

Definition command_overrides (tlsEmail : option string) (flags : Flags)
    : list (string * ascii) :=
  if tls flags then
    [("--set global.cheDomain", eq_sign); (domain flags, sp);
     ("--set global.tls.email=", quote); (template_text tlsEmail, quote); ("", sp)]
  else [("", sp)].

Definition command_middle (flags : Flags) : list (string * ascii) :=
  [("--set cheImage", eq_sign); (cheimage flags, sp);
   ("--set global.cheWorkspacesNamespace", eq_sign); (chenamespace flags, sp);
   ("--set che.workspace.devfileRegistryUrl", eq_sign); (devfile_registry_url flags, sp);
   ("--set che.workspace.pluginRegistryUrl", eq_sign); (plugin_registry_url flags, sp)].

Definition command_values (on : bool) (file : string) (destDir : string)
    : list (string * ascii) :=
  if on then [("-f", sp); (destDir, letter_v); (file, sp)] else [("", sp)].

Definition command_pieces (tlsEmail : option string) (flags : Flags) (destDir : string)
    : list (string * ascii) :=
  command_head flags ++ command_overrides tlsEmail flags ++ command_middle flags
  ++ command_values (multiuser flags) "alues/multi-user.yaml" destDir
  ++ command_values (tls flags) "alues/tls.yaml" destDir.

(** ** A scripted world

    A small concrete platform on which the installer can be run: processes
    answer from a script, the cluster holds at most the [che-tls] secret, and
    the file system is a finite map from paths to nodes. *)

Record TestWorld : Type := mkTest {
  answers : list CommandResult;
  files : gmap string fsnode;
  helm_installed : bool;
  che_tls : option (option string);
  cert_manager : bool;
  copy_error : option exn
}.

Definition success : CommandResult := mkResult "" (Exited 0) "" "" false.

Definition exit_with (c : Z) (out err : string) : CommandResult :=
  mkResult "" (Exited c) out err false.

(** [strip_prefix d p] is [Some rel] when [p = d +:+ rel]. *)
Fixpoint strip_prefix (d p : string) : option string :=
  match d, p with
  | EmptyString, _ => Some p
  | String a d', String b p' => if Ascii.eqb a b then strip_prefix d' p' else None
  | String _ _, EmptyString => None
  end.

(** A file written onto itself ends up empty. *)
Definition copied_node (same : bool) (n : fsnode) : fsnode :=
  match n with
  | File content => File (if same then "" else content)
  | Dir => Dir
  end.

Definition copy_tree (source dest : string) (fs : gmap string fsnode) : gmap string fsnode :=
  foldr (fun '(p, n) acc =>
           match strip_prefix source p with
           | Some rel => <[dest +:+ rel := copied_node (String.eqb (dest +:+ rel) p) n]> acc
           | None => acc
           end) fs (map_to_list fs).

(** What a process does to the files: the dependency update writes its lock
    file into the chart directory it is given; no other process writes. *)
Definition process_files (inv : Invocation) (fs : gmap string fsnode) : gmap string fsnode :=
  match inv with
  | ExecaShell command _ =>
      match strip_prefix "helm dependencies update --skip-refresh " command with
      | Some dir => <[dir +:+ "requirements.lock" := File "dependencies: []"]> fs
      | None => fs
      end
  | Execa _ _ _ => fs
  end.

Definition test_spawn (inv : Invocation) (w : TestWorld) : CommandResult * TestWorld :=
  (hd success (answers w),
   mkTest (tl (answers w)) (process_files inv (files w)) (helm_installed w)
          (che_tls w) (cert_manager w) (copy_error w)).

Definition test_mkdirp (d : string) (w : TestWorld) : Result unit * TestWorld :=
  (Ok tt,
   mkTest (answers w)
          (match files w !! d with Some _ => files w | None => <[d := Dir]> (files w) end)
          (helm_installed w) (che_tls w) (cert_manager w) (copy_error w)).

Definition test_ncp_copy (source dest : string) (w : TestWorld) : option exn * TestWorld :=
  match copy_error w with
  | Some e => (Some e, w)
  | None =>
      (None,
       mkTest (answers w) (copy_tree source dest (files w)) (helm_installed w)
              (che_tls w) (cert_manager w) (copy_error w))
  end.

Definition test_readFileSync (p : string) (w : TestWorld) : Result string :=
  match files w !! p with
  | Some (File content) => Ok content
  | Some Dir => Throw (External "EISDIR")
  | None => Throw (External "ENOENT")
  end.

#[export] Instance test_platform : Platform TestWorld := {|
  spawn := test_spawn;
  commandExists_sync := fun _ w => helm_installed w;
  secretExist := fun _ w => (Ok (bool_decide (is_Some (che_tls w))), w);
  getSecret := fun _ w => (Ok (mjoin (che_tls w)), w);
  apiVersionExist := fun _ w => (Ok (cert_manager w), w);
  readFileSync := test_readFileSync;
  mkdirp := test_mkdirp;
  ncp_copy := test_ncp_copy;
  fs_read := fun w p => files w !! p
|}.

(** The history outputs used in the examples below, as helm prints them. *)
Definition history_empty : string := "[]".

Definition history_rev (n : string) : string :=
  "{" +:+ dquote +:+ "revision" +:+ dquote +:+ ":" +:+ dquote +:+ n +:+ dquote +:+ "}".

Definition history_first : string := "[" +:+ history_rev "1" +:+ "]".

Definition history_three : string :=
  "[" +:+ history_rev "3" +:+ "," +:+ history_rev "2" +:+ "," +:+ history_rev "1" +:+ "]".

Definition entry (n : string) : jsval := JObject [("revision", JString n)].

(** A runtime for the examples: [JSON.parse] restricted to the outputs above
    (every other text is rejected), [path.join] on a directory without a
    trailing slash and a part that starts with one, and [v > 0] on numbers and
    booleans. *)
Definition test_JSON_parse (s : string) : string + jsval :=
  if String.eqb s history_empty then inr (JArray [])
  else if String.eqb s history_first then inr (JArray [entry "1"])
  else if String.eqb s history_three then inr (JArray [entry "3"; entry "2"; entry "1"])
  else inl "SyntaxError: Unexpected token in JSON at position 0".

#[export] Instance test_runtime : JsRuntime := {|
  JSON_parse := test_JSON_parse;
  path_join := String.append;
  js_gt0 := fun v =>
    match v with
    | JNumber n => bool_decide (0 < n)
    | JBool b => b
    | _ => false
    end
|}.

Definition test_flags : Flags :=
  mkFlags false false "/opt/chectl/templates" "che" "192.168.99.100.nip.io"
          "eclipse/che-server:nightly" "https://che-devfile-registry.openshift.io/"
          "https://che-plugin-registry.openshift.io/v3".

(** The templates that ship with the installer. *)
Definition chart_files : gmap string fsnode :=
  {[ "/opt/chectl/templates/kubernetes/helm/che/tiller-rbac.yaml" := File "kind: ClusterRoleBinding";
     "/opt/chectl/templates/kubernetes/helm/che/Chart.yaml" := File "name: che" ]}.

Definition test_world (script : list CommandResult) : TestWorld :=
  mkTest script chart_files true None false None.

Definition initial (w : TestWorld) : PState :=
  mkState w ∅ [] [] [].

Definition test_cache : string := "/home/user/.cache/chectl".

(** A deployment whose first upgrade fails, with the history output [out] and
    every later process succeeding. *)
Definition failed_upgrade (out : string) : PState :=
  initial (test_world [exit_with 1 "" "Error: UPGRADE FAILED"; exit_with 0 out ""]).

(** The same, with a history query that exits with 1. *)
Definition failed_history : PState :=
  initial (test_world [exit_with 1 "" "Error: UPGRADE FAILED";
                       exit_with 1 "" "Error: release not found"]).

(** A deployment whose upgrade fails, whose history holds revision 1 alone, and
    whose second upgrade fails as well. *)
Definition failed_retry : PState :=
  initial (test_world [exit_with 1 "" "Error: UPGRADE FAILED";
                       exit_with 0 history_first "";
                       success;
                       exit_with 1 "" "Error: UPGRADE FAILED again"]).

(** A configuration that installs into another namespace than [che]. *)
Definition namespace_flags : Flags :=
  mkFlags false false "/opt/chectl/templates" "eclipse-che" "192.168.99.100.nip.io"
          "eclipse/che-server:nightly" "https://che-devfile-registry.openshift.io/"
          "https://che-plugin-registry.openshift.io/v3".


Definition tls_flags : Flags :=
  mkFlags true true "/opt/chectl/templates" "che" "192.168.99.100.nip.io"
          "eclipse/che-server:nightly" "https://che-devfile-registry.openshift.io/"
          "https://che-plugin-registry.openshift.io/v3".

(** A world whose [che-tls] secret holds the contact address [email]. *)
Definition tls_world (email : string) (script : list CommandResult) : TestWorld :=
  mkTest script chart_files true (Some (Some email)) true None.

(** The state in which the deployment task starts, after the first nine tasks
    have run in such a world. *)
Definition before_deployment (email : string) : PState :=
  (run_from 0 (take 9 (startTasks tls_flags test_cache)) (initial (tls_world email []))).2.

(** A world in which the copy of the chart fails. *)
Definition broken_copy_world : TestWorld :=
  mkTest [] chart_files true None false (Some (External "ENOENT: no such file or directory")).


(** A configuration whose image text carries the multi-user values flag. *)
Definition carrying_flags : Flags :=
  mkFlags false false "/opt/chectl/templates" "che" "192.168.99.100.nip.io"
          "eclipse/che-server:nightly -f /home/user/.cache/chectl/templates/kubernetes/helm/che/values/multi-user.yaml"
          "https://che-devfile-registry.openshift.io/"
          "https://che-plugin-registry.openshift.io/v3".


(** A configuration whose templates are the ones staged in the cache. *)
Definition cache_templates_flags : Flags :=
  mkFlags false false "/home/user/.cache/chectl/templates" "che" "192.168.99.100.nip.io"
          "eclipse/che-server:nightly" "https://che-devfile-registry.openshift.io/"
          "https://che-plugin-registry.openshift.io/v3".


(** A world in which those templates are in place. *)
Definition cache_templates_world : TestWorld :=
  mkTest []
    {[ "/home/user/.cache/chectl/templates/kubernetes/helm/che/Chart.yaml" := File "name: che" ]}
    true None false None.


(** A machine without [helm]. *)
Definition no_helm_world : TestWorld :=
  mkTest [] chart_files false None false None.

(** A machine whose templates directory is empty. *)
Definition no_manifest_world : TestWorld :=
  mkTest [] ∅ true None false None.

(** A [helm init] that was killed at its timeout. *)
Definition init_timed_out : CommandResult :=
  mkResult "helm init --service-account tiller --wait" NoCode "" "Error: timeout" true.

(** A [helm init] that could not be started. *)
Definition init_not_started : CommandResult :=
  mkResult "helm init --service-account tiller --wait" (CodeName "ENOENT") ""
           "spawn helm ENOENT" false.

(** A deployment whose upgrade fails and whose rollback to revision 3 fails
    too. *)
Definition failed_rollback : PState :=
  initial (test_world [exit_with 1 "" "Error: UPGRADE FAILED";
                       exit_with 0 history_three "";
                       exit_with 1 "" "Error: rollback failed"]).

(** Two more outputs that are valid JSON: a list whose only entry is [null],
    and a text between quotes. *)
Definition history_null_entry : string := "[null]".

Definition history_message : string :=
  dquote +:+ "release: not found" +:+ dquote.

(** A runtime that parses these two as well. *)
Definition shapes_runtime : JsRuntime := {|
  JSON_parse := fun s =>
    if String.eqb s history_null_entry then inr (JArray [JNull])
    else if String.eqb s history_message then inr (JString "release: not found")
    else test_JSON_parse s;
  path_join := String.append;
  js_gt0 := fun _ => false
|}.

(** A runtime that also parses the history output [null]. *)
Definition null_runtime : JsRuntime := {|
  JSON_parse := fun s => if String.eqb s "null" then inr JNull else test_JSON_parse s;
  path_join := String.append;
  js_gt0 := fun _ => false
|}.


(** * Properties *)

Section Properties.

Context {W : Type} `{!Platform W} `{!JsRuntime}.

Implicit Types (st : @PState W) (flags : Flags) (r : CommandResult).
Implicit Types (s : @Step W) (steps : list (@Step W)).

Local Abbreviation M := (@M W).

Lemma code_is_0_true r : code_is_0 r = true <-> code r = Some 0.
Proof. unfold code_is_0. apply bool_decide_eq_true. Qed.

Lemma code_is_0_false r : code_is_0 r = false <-> code r <> Some 0.
Proof. unfold code_is_0. apply bool_decide_eq_false. Qed.

Lemma run_process_keep inv st :
  run_process inv false st = (Ok (answer inv st), after_process inv st).
Proof.
  unfold run_process, after_process, answer.
  destruct (spawn inv (world st)) as [r w]. reflexivity.
Qed.

Lemma run_process_reject inv st :
  run_process inv true st =
    (if execa_failed (answer inv st) then Throw (ExecaError (answer inv st))
     else Ok (answer inv st), after_process inv st).
Proof.
  unfold run_process, after_process, answer.
  destruct (spawn inv (world st)) as [r w]. simpl.
  destruct (execa_failed r); reflexivity.
Qed.

(** ** The deployment, case by case *)

Lemma events_app st st' l : trace st' = trace st ++ l -> events st st' = l.
Proof. intros Heq. unfold events. rewrite Heq. apply drop_app_length. Qed.

Lemma trace_after_process inv st :
  trace (after_process inv st) = trace st ++ [(inv, answer inv st)].
Proof. reflexivity. Qed.

Lemma ctx_after_process inv st : ctx (after_process inv st) = ctx st.
Proof. reflexivity. Qed.

(** Opens the body of [upgradeCheHelmChart] on the vocabulary's own terms. *)
Ltac open_upgrade :=
  unfold upgrade_invocation, history_invocation in *;
  unfold upgradeCheHelmChart, bind, ctx_get, execa_shell; simpl;
  rewrite run_process_keep.

Ltac first_attempt_failed H :=
  apply code_is_0_false in H; rewrite H; simpl; rewrite run_process_keep.

(** The first attempt succeeds: nothing else happens. *)
Lemma upgrade_success flags cacheDir t st :
  let up := upgrade_invocation flags cacheDir t st in
  code (answer up st) = Some 0 ->
  upgradeCheHelmChart flags cacheDir t st = (Ok tt, after_process up st).
Proof.
  intros up Hc; subst up. open_upgrade.
  apply code_is_0_true in Hc. rewrite Hc. reflexivity.
Qed.

(** The history query fails. *)
Lemma upgrade_history_failed flags cacheDir t st :
  let up := upgrade_invocation flags cacheDir t st in
  let st1 := after_process up st in
  let hist := history_invocation flags t in
  code (answer up st) <> Some 0 ->
  code (answer hist st1) <> Some 0 ->
  upgradeCheHelmChart flags cacheDir t st =
    (Throw (Error ("Unable to execute helm command "
                   +:+ upgrade_command (ctx st !! "tlsEmail") flags (chart_destDir cacheDir)
                   +:+ " / " +:+ stderr (answer up st))),
     after_process hist st1).
Proof.
  intros up st1 hist H1 H2; subst up st1 hist. open_upgrade.
  first_attempt_failed H1.
  apply code_is_0_false in H2. rewrite H2. reflexivity.
Qed.

(** The history output is not JSON. *)
Lemma upgrade_history_unparsed flags cacheDir t st err :
  let up := upgrade_invocation flags cacheDir t st in
  let st1 := after_process up st in
  let hist := history_invocation flags t in
  code (answer up st) <> Some 0 ->
  code (answer hist st1) = Some 0 ->
  JSON_parse (stdout (answer hist st1)) = inl err ->
  upgradeCheHelmChart flags cacheDir t st =
    (Throw (Error ("Unable to grab helm history:" +:+ err)), after_process hist st1).
Proof.
  intros up st1 hist H1 H2 Hp; subst up st1 hist. open_upgrade.
  first_attempt_failed H1.
  apply code_is_0_true in H2. rewrite H2. simpl. rewrite Hp. reflexivity.
Qed.

(** The history output is JSON, but reading the revision of its first entry
    throws. *)
Lemma upgrade_no_remedy flags cacheDir t st v e :
  let up := upgrade_invocation flags cacheDir t st in
  let st1 := after_process up st in
  let hist := history_invocation flags t in
  code (answer up st) <> Some 0 ->
  code (answer hist st1) = Some 0 ->
  JSON_parse (stdout (answer hist st1)) = inr v ->
  choose_remedy v = Throw e ->
  upgradeCheHelmChart flags cacheDir t st = (Throw e, after_process hist st1).
Proof.
  intros up st1 hist H1 H2 Hp Hr; subst up st1 hist. open_upgrade.
  first_attempt_failed H1.
  apply code_is_0_true in H2. rewrite H2. simpl. rewrite Hp.
  unfold choose_remedy in Hr. unfold lift.
  destruct (index0 v) as [first|e1]; [|congruence].
  destruct (get_revision first) as [rev|e2]; congruence.
Qed.

(** A remedy is chosen: it runs, and unless it is a rollback that fails, the
    first command runs once more. *)
Lemma upgrade_remedy flags cacheDir t st v a :
  let up := upgrade_invocation flags cacheDir t st in
  let st1 := after_process up st in
  let hist := history_invocation flags t in
  let st2 := after_process hist st1 in
  let rem := remedy_invocation flags t a in
  let st3 := after_process rem st2 in
  code (answer up st) <> Some 0 ->
  code (answer hist st1) = Some 0 ->
  JSON_parse (stdout (answer hist st1)) = inr v ->
  choose_remedy v = Ok a ->
  upgradeCheHelmChart flags cacheDir t st =
    if remedy_rejects a (answer rem st2) then (Throw (ExecaError (answer rem st2)), st3)
    else (if execa_failed (answer up st3) then Throw (ExecaError (answer up st3)) else Ok tt,
          after_process up st3).
Proof.
  intros up st1 hist st2 rem st3 H1 H2 Hp Hr; subst up st1 hist st2 rem st3.
  open_upgrade. first_attempt_failed H1.
  apply code_is_0_true in H2. rewrite H2. simpl. rewrite Hp.
  unfold choose_remedy in Hr. unfold lift.
  destruct (index0 v) as [first|e1]; [|congruence].
  destruct (get_revision first) as [rev|e2]; [|congruence].
  injection Hr as <-.
  destruct (length_gt0 v && is_string_1 rev); simpl.
  - unfold purgeHelmChart, execa, execa_v, bind; simpl.
    rewrite run_process_keep; simpl. rewrite run_process_reject.
    unfold purge_invocation.
    match goal with |- context [execa_failed ?r] => destruct (execa_failed r) end;
      reflexivity.
  - rewrite run_process_reject.
    match goal with |- context [execa_failed ?r] => destruct (execa_failed r) end;
      simpl; [reflexivity|].
    rewrite run_process_reject.
    match goal with |- context [execa_failed ?r] => destruct (execa_failed r) end;
      reflexivity.
Qed.

(** ** What the recovery runs *)

Lemma events_remedy flags cacheDir t st v a :
  let up := upgrade_invocation flags cacheDir t st in
  let st1 := after_process up st in
  let hist := history_invocation flags t in
  let st2 := after_process hist st1 in
  let rem := remedy_invocation flags t a in
  let st3 := after_process rem st2 in
  code (answer up st) <> Some 0 ->
  code (answer hist st1) = Some 0 ->
  JSON_parse (stdout (answer hist st1)) = inr v ->
  choose_remedy v = Ok a ->
  events st (upgradeCheHelmChart flags cacheDir t st).2 =
    [(up, answer up st); (hist, answer hist st1); (rem, answer rem st2)]
    ++ (if remedy_rejects a (answer rem st2) then [] else [(up, answer up st3)]).
Proof.
  intros up st1 hist st2 rem st3 H1 H2 Hp Hr.
  rewrite (upgrade_remedy flags cacheDir t st v a H1 H2 Hp Hr).
  fold up st1 hist st2 rem st3.
  destruct (remedy_rejects a (answer rem st2)); simpl; apply events_app;
    subst st3 st2 st1; rewrite !trace_after_process, <- !app_assoc; reflexivity.
Qed.

Lemma events_no_remedy flags cacheDir t st v e :
  let up := upgrade_invocation flags cacheDir t st in
  let st1 := after_process up st in
  let hist := history_invocation flags t in
  code (answer up st) <> Some 0 ->
  code (answer hist st1) = Some 0 ->
  JSON_parse (stdout (answer hist st1)) = inr v ->
  choose_remedy v = Throw e ->
  events st (upgradeCheHelmChart flags cacheDir t st).2 =
    [(up, answer up st); (hist, answer hist st1)].
Proof.
  intros up st1 hist H1 H2 Hp Hr.
  rewrite (upgrade_no_remedy flags cacheDir t st v e H1 H2 Hp Hr).
  fold up st1 hist. simpl. apply events_app.
  subst st1; rewrite !trace_after_process, <- !app_assoc; reflexivity.
Qed.

Lemma is_string_1_true v : is_string_1 v = true <-> v = JString "1".
Proof.
  destruct v; simpl; try (split; [discriminate | congruence]).
  rewrite String.eqb_eq. split; congruence.
Qed.

(** The remedy for a history that is a list: none for the empty list, none when
    the first entry has no properties to read, otherwise by its revision. *)
Lemma choose_remedy_list (history : list jsval) :
  choose_remedy (JArray history) =
    match history with
    | [] => Throw (TypeError "Cannot read property 'revision' of undefined")
    | first :: _ =>
        match get_revision first with
        | Throw e => Throw e
        | Ok revision => Ok (if is_string_1 revision then Purge else Rollback revision)
        end
    end.
Proof. destruct history as [|first rest]; reflexivity. Qed.

Lemma purge_not_rollback flags revision t :
  purge_invocation flags <> rollback_invocation flags revision t.
Proof. unfold purge_invocation, rollback_invocation. congruence. Qed.

Lemma rollback_inj flags rev rev' t :
  rollback_invocation flags rev t = rollback_invocation flags rev' t -> rev = rev'.
Proof. unfold rollback_invocation. congruence. Qed.

(** Membership in what the recovery invoked, once a remedy is chosen. *)
Lemma invoked_remedy flags cacheDir t st v a inv :
  let up := upgrade_invocation flags cacheDir t st in
  let st1 := after_process up st in
  let hist := history_invocation flags t in
  code (answer up st) <> Some 0 ->
  code (answer hist st1) = Some 0 ->
  JSON_parse (stdout (answer hist st1)) = inr v ->
  choose_remedy v = Ok a ->
  (forall command t', inv <> ExecaShell command t') ->
  inv ∈ invoked st (upgradeCheHelmChart flags cacheDir t st).2 <->
  inv = remedy_invocation flags t a.
Proof.
  intros up st1 hist H1 H2 Hp Hr Hshell. unfold invoked.
  rewrite (events_remedy flags cacheDir t st v a H1 H2 Hp Hr).
  fold up st1 hist.
  destruct (remedy_rejects _ _); simpl; rewrite !elem_of_cons, elem_of_nil.
  - split.
    + intros [->|[->|[->|[]]]]; [by destruct (Hshell _ _ eq_refl)..|done].
    + auto.
  - split.
    + intros [->|[->|[->|[->|[]]]]]; [by destruct (Hshell _ _ eq_refl)..|done|].
      by destruct (Hshell _ _ eq_refl).
    + auto.
Qed.

Lemma invoked_no_remedy flags cacheDir t st v e inv :
  let up := upgrade_invocation flags cacheDir t st in
  let st1 := after_process up st in
  let hist := history_invocation flags t in
  code (answer up st) <> Some 0 ->
  code (answer hist st1) = Some 0 ->
  JSON_parse (stdout (answer hist st1)) = inr v ->
  choose_remedy v = Throw e ->
  (forall command t', inv <> ExecaShell command t') ->
  inv ∉ invoked st (upgradeCheHelmChart flags cacheDir t st).2.
Proof.
  intros up st1 hist H1 H2 Hp Hr Hshell. unfold invoked.
  rewrite (events_no_remedy flags cacheDir t st v e H1 H2 Hp Hr). simpl.
  rewrite !elem_of_cons, elem_of_nil.
  intros [->|[->|[]]]; by destruct (Hshell _ _ eq_refl).
Qed.

(** The decision for a history that is a list, in the vocabulary above. *)
Lemma recovery_cases flags cacheDir t st (history : list jsval) :
  let up := upgrade_invocation flags cacheDir t st in
  let st1 := after_process up st in
  let hist := history_invocation flags t in
  let ran := invoked st (upgradeCheHelmChart flags cacheDir t st).2 in
  code (answer up st) <> Some 0 ->
  code (answer hist st1) = Some 0 ->
  JSON_parse (stdout (answer hist st1)) = inr (JArray history) ->
  (purge_invocation flags ∈ ran <->
     exists first rest, history = first :: rest /\ get_revision first = Ok (JString "1"))
  /\ (purge_invocation flags ∈ ran ->
      forall revision, rollback_invocation flags revision t ∉ ran)
  /\ (forall first rest revision,
        history = first :: rest ->
        get_revision first = Ok revision ->
        revision <> JString "1" ->
        rollback_invocation flags revision t ∈ ran
        /\ (purge_invocation flags ∉ ran)
        /\ (forall other, rollback_invocation flags other t ∈ ran -> other = revision)).
Proof.
  intros up st1 hist ran H1 H2 Hp. subst ran.
  pose proof (choose_remedy_list history) as Hc.
  assert (Hps : forall command t', purge_invocation flags <> ExecaShell command t')
    by (intros; discriminate).
  assert (Hrs : forall rev command t',
             rollback_invocation flags rev t <> ExecaShell command t')
    by (intros; discriminate).
  destruct history as [|first rest].
  - (* empty history: no remedy at all *)
    pose proof (fun inv => invoked_no_remedy flags cacheDir t st _ _ inv H1 H2 Hp Hc) as Hno.
    split; [split|split].
    + intros Hin. destruct (Hno _ Hps Hin).
    + intros (f & r & Heq & _). discriminate.
    + intros Hin. destruct (Hno _ Hps Hin).
    + intros f r revision Heq. discriminate.
  - destruct (get_revision first) as [rev|e] eqn:Hrev.
    + pose proof (fun inv => invoked_remedy flags cacheDir t st _ _ inv H1 H2 Hp Hc) as Hyes.
      simpl in Hyes.
      destruct (is_string_1 rev) eqn:H1s; simpl in Hyes.
      * apply is_string_1_true in H1s. subst rev.
        split; [split|split].
        -- intros _. eauto.
        -- intros _. apply Hyes; done.
        -- intros _ revision Hin. apply Hyes in Hin; [|apply Hrs].
           destruct (purge_not_rollback flags revision t). done.
        -- intros f r revision [= <- <-] Hf Hne. congruence.
      * assert (rev <> JString "1") as Hne
          by (intros ->; simpl in H1s; discriminate).
        split; [split|split].
        -- intros Hin. apply Hyes in Hin; [|done].
           destruct (purge_not_rollback flags rev t). done.
        -- intros (f & r & [= <- <-] & Hf). congruence.
        -- intros Hin. apply Hyes in Hin; [|done].
           destruct (purge_not_rollback flags rev t). done.
        -- intros f r revision [= <- <-] Hf _.
           assert (revision = rev) as -> by congruence.
           split; [|split].
           ++ apply Hyes; [apply Hrs|done].
           ++ intros Hin. apply Hyes in Hin; [|done].
              destruct (purge_not_rollback flags rev t). done.
           ++ intros other Hin. apply Hyes in Hin; [|apply Hrs].
              apply rollback_inj in Hin. done.
    + (* the first entry is [null]: reading its revision throws *)
      pose proof (fun inv => invoked_no_remedy flags cacheDir t st _ _ inv H1 H2 Hp Hc) as Hno.
      split; [split|split].
      * intros Hin. destruct (Hno _ Hps Hin).
      * intros (f & r & [= <- <-] & Hf). congruence.
      * intros Hin. destruct (Hno _ Hps Hin).
      * intros f r revision [= <- <-] Hf. congruence.
Qed.

(** C1, as the code has it. After a failed upgrade and a history output that
    parses to a list (most recent entry first), [helm delete <release> --purge]
    is invoked exactly when the list is not empty and the revision of its first
    entry is the string "1", and then no rollback is invoked. When the first
    entry is not [null], its revision can be read, and when that revision is
    anything but the string "1", [helm rollback <release> <revision>] is
    invoked with exactly that revision, and no purge. When the first entry is
    [null], reading its revision throws a [TypeError]: neither the purge nor a
    rollback is invoked. The release named in both commands is
    [flags.chenamespace]. *)
Theorem recovery_decision flags cacheDir t st (history : list jsval) :
  let command := upgrade_command (ctx st !! "tlsEmail") flags (chart_destDir cacheDir) in
  let up := ExecaShell command t in
  let st1 := after_process up st in
  let hist := ExecaShell ("helm history " +:+ chenamespace flags +:+ " --output json") t in
  let purge :=
    Execa "helm" [JString "delete"; JString (chenamespace flags); JString "--purge"] 30000 in
  let rollback := fun revision =>
    Execa "helm" [JString "rollback"; JString (chenamespace flags); revision] t in
  let out := upgradeCheHelmChart flags cacheDir t st in
  let ran := invoked st out.2 in
  code (answer up st) <> Some 0 ->
  code (answer hist st1) = Some 0 ->
  JSON_parse (stdout (answer hist st1)) = inr (JArray history) ->
  (purge ∈ ran <->
     exists first rest, history = first :: rest /\ get_revision first = Ok (JString "1"))
  /\ (purge ∈ ran -> forall revision, rollback revision ∉ ran)
  /\ (forall first rest,
        history = first :: rest -> first <> JNull -> first <> JUndefined ->
        exists revision,
          get_revision first = Ok revision
          /\ (revision <> JString "1" ->
              rollback revision ∈ ran
              /\ (purge ∉ ran)
              /\ (forall other, rollback other ∈ ran -> other = revision)))
  /\ (forall rest,
        history = JNull :: rest ->
        is_TypeError out.1
        /\ (purge ∉ ran)
        /\ (forall revision, rollback revision ∉ ran)).
Proof.
  intros command up st1 hist purge rollback out ran H1 H2 Hp.
  destruct (recovery_cases flags cacheDir t st history H1 H2 Hp) as (Hpurge & Hexcl & Hroll).
  split; [exact Hpurge|]. split; [exact Hexcl|]. split.
  - intros first rest Heq Hnull Hundef.
    assert (exists revision, get_revision first = Ok revision) as [revision Hrev].
    { destruct first; simpl; eauto; contradiction. }
    exists revision. split; [exact Hrev|].
    intros Hne. exact (Hroll first rest revision Heq Hrev Hne).
  - intros rest Heq. subst history.
    assert (Hc : choose_remedy (JArray (JNull :: rest))
                 = Throw (TypeError "Cannot read property 'revision' of null"))
      by reflexivity.
    split; [|split].
    + subst out. rewrite (upgrade_no_remedy flags cacheDir t st _ _ H1 H2 Hp Hc).
      by eexists.
    + apply (invoked_no_remedy flags cacheDir t st _ _ _ H1 H2 Hp Hc). discriminate.
    + intros revision.
      apply (invoked_no_remedy flags cacheDir t st _ _ _ H1 H2 Hp Hc). discriminate.
Qed.

Lemma events_two inv1 inv2 st :
  events st (after_process inv2 (after_process inv1 st)) =
    [(inv1, answer inv1 st); (inv2, answer inv2 (after_process inv1 st))].
Proof.
  apply events_app. rewrite !trace_after_process, <- !app_assoc. reflexivity.
Qed.

Lemma events_one inv st : events st (after_process inv st) = [(inv, answer inv st)].
Proof. apply events_app. apply trace_after_process. Qed.

(** After a remedy that did not throw: the four processes and the outcome, in
    the vocabulary above. *)
Lemma retry_after_remedy flags cacheDir t st (i : nat) inv r :
  let up := upgrade_invocation flags cacheDir t st in
  let hist := history_invocation flags t in
  let out := upgradeCheHelmChart flags cacheDir t st in
  events st out.2 !! i = Some (inv, r) ->
  inv = purge_invocation flags
  \/ ((exists revision, inv = rollback_invocation flags revision t)
      /\ execa_failed r = false) ->
  exists r1 r2 r4,
    events st out.2 = [(up, r1); (hist, r2); (inv, r); (up, r4)]
    /\ out.1 = (if execa_failed r4 then Throw (ExecaError r4) else Ok tt).
Proof.
  intros up hist out Hi Hinv. subst out.
  assert (Hns : forall command t', inv <> ExecaShell command t').
  { intros c t' ->. destruct Hinv as [Hp|[[rev Hr] _]]; discriminate. }
  set (st1 := after_process up st).
  destruct (decide (code (answer up st) = Some 0)) as [H1|H1].
  { rewrite (upgrade_success flags cacheDir t st H1) in Hi. simpl in Hi.
    fold up in Hi. rewrite events_one in Hi.
    destruct i as [|i]; simpl in Hi; [|done].
    injection Hi as <- _. by destruct (Hns _ _ eq_refl). }
  destruct (decide (code (answer hist st1) = Some 0)) as [H2|H2]; cycle 1.
  { rewrite (upgrade_history_failed flags cacheDir t st H1 H2) in Hi. simpl in Hi.
    fold up hist in Hi. rewrite events_two in Hi.
    destruct i as [|[|i]]; simpl in Hi; [| |done];
      injection Hi as <- _; by destruct (Hns _ _ eq_refl). }
  destruct (JSON_parse (stdout (answer hist st1))) as [err|v] eqn:Hp.
  { rewrite (upgrade_history_unparsed flags cacheDir t st err H1 H2 Hp) in Hi.
    simpl in Hi. fold up hist in Hi. rewrite events_two in Hi.
    destruct i as [|[|i]]; simpl in Hi; [| |done];
      injection Hi as <- _; by destruct (Hns _ _ eq_refl). }
  destruct (choose_remedy v) as [a|e] eqn:Hr; cycle 1.
  { rewrite (events_no_remedy flags cacheDir t st v e H1 H2 Hp Hr) in Hi.
    destruct i as [|[|i]]; simpl in Hi; [| |done];
      injection Hi as <- _; by destruct (Hns _ _ eq_refl). }
  pose proof (events_remedy flags cacheDir t st v a H1 H2 Hp Hr) as Hev.
  pose proof (upgrade_remedy flags cacheDir t st v a H1 H2 Hp Hr) as Hout.
  simpl in Hev, Hout. fold up hist st1 in Hev, Hout.
  set (st2 := after_process hist st1) in *.
  set (rem := remedy_invocation flags t a) in *.
  assert (inv = rem /\ r = answer rem st2) as [-> ->].
  { rewrite Hev in Hi.
    destruct i as [|[|[|i]]]; simpl in Hi.
    - injection Hi as <- _. by destruct (Hns _ _ eq_refl).
    - injection Hi as <- _. by destruct (Hns _ _ eq_refl).
    - by injection Hi as <- <-.
    - destruct (remedy_rejects _ _); simpl in Hi; [done|].
      destruct i; simpl in Hi; [|done].
      injection Hi as <- _. by destruct (Hns _ _ eq_refl). }
  assert (remedy_rejects a (answer rem st2) = false) as Hok.
  { destruct a as [|rev]; [reflexivity|]. simpl.
    destruct Hinv as [Hp'|[_ Hf]]; [|exact Hf].
    subst rem. simpl in Hp'. by destruct (purge_not_rollback flags rev t). }
  rewrite Hok in Hev, Hout.
  exists (answer up st), (answer hist st1), (answer up (after_process rem st2)).
  split; [exact Hev|]. rewrite Hout. reflexivity.
Qed.

(** When [execa] rejects: the command timed out, or its code is not 0. *)
Lemma execa_failed_true r :
  execa_failed r = true <-> timedOut r = true \/ code r <> Some 0.
Proof.
  unfold execa_failed. rewrite orb_true_iff, negb_true_iff, code_is_0_false. tauto.
Qed.

Lemma execa_failed_false r :
  execa_failed r = false <-> timedOut r = false /\ code r = Some 0.
Proof.
  unfold execa_failed. rewrite orb_false_iff, negb_false_iff, code_is_0_true. tauto.
Qed.

(** C4. Once [helm delete <release> --purge] has run, or [helm rollback] has
    run and neither timed out nor exited with another code than 0, the first
    upgrade command (the same command text, the same timeout) is run again,
    once, as the last process of the deployment: the processes are the
    upgrade, the history query, the remedy and the upgrade again, and nothing
    else. When that last run timed out or exited with another code than 0 the
    deployment throws [execa]'s error for it; when it did neither the
    deployment returns normally. *)
Theorem retry_once flags cacheDir t st (i : nat) inv r :
  let command := upgrade_command (ctx st !! "tlsEmail") flags (chart_destDir cacheDir) in
  let up := ExecaShell command t in
  let hist := ExecaShell ("helm history " +:+ chenamespace flags +:+ " --output json") t in
  let out := upgradeCheHelmChart flags cacheDir t st in
  events st out.2 !! i = Some (inv, r) ->
  inv = Execa "helm" [JString "delete"; JString (chenamespace flags); JString "--purge"] 30000
  \/ ((exists revision,
         inv = Execa "helm" [JString "rollback"; JString (chenamespace flags); revision] t)
      /\ timedOut r = false /\ code r = Some 0) ->
  exists r1 r2 r4,
    events st out.2 = [(up, r1); (hist, r2); (inv, r); (up, r4)]
    /\ (timedOut r4 = true \/ code r4 <> Some 0 -> out.1 = Throw (ExecaError r4))
    /\ (timedOut r4 = false -> code r4 = Some 0 -> out.1 = Ok tt).
Proof.
  intros command up hist out Hi Hinv.
  destruct (retry_after_remedy flags cacheDir t st i inv r Hi)
    as (r1 & r2 & r4 & Hev & Hout).
  { destruct Hinv as [->|[Hback Hfine]]; [by left|right].
    split; [exact Hback|]. by apply execa_failed_false. }
  exists r1, r2, r4. split; [exact Hev|]. split.
  - intros Hfail. apply execa_failed_true in Hfail.
    subst out. rewrite Hout, Hfail. reflexivity.
  - intros Htime Hcode.
    assert (execa_failed r4 = false) as Hfine by (by apply execa_failed_false).
    subst out. rewrite Hout, Hfine. reflexivity.
Qed.

(** The two fatal outcomes of the history query, in the vocabulary above. *)
Lemma history_query_cases flags cacheDir t st :
  let up := upgrade_invocation flags cacheDir t st in
  let st1 := after_process up st in
  let hist := history_invocation flags t in
  let command := upgrade_command (ctx st !! "tlsEmail") flags (chart_destDir cacheDir) in
  let out := upgradeCheHelmChart flags cacheDir t st in
  code (answer up st) <> Some 0 ->
  (code (answer hist st1) <> Some 0 ->
     out.1 = Throw (Error ("Unable to execute helm command " +:+ command
                           +:+ " / " +:+ stderr (answer up st)))
     /\ invoked st out.2 = [up; hist])
  /\ (forall err,
        code (answer hist st1) = Some 0 ->
        JSON_parse (stdout (answer hist st1)) = inl err ->
        out.1 = Throw (Error ("Unable to grab helm history:" +:+ err))
        /\ invoked st out.2 = [up; hist]).
Proof.
  intros up st1 hist command out H1. subst out. split.
  - intros H2. rewrite (upgrade_history_failed flags cacheDir t st H1 H2). simpl.
    split; [reflexivity|]. unfold invoked. fold up hist. by rewrite events_two.
  - intros err H2 Hp.
    rewrite (upgrade_history_unparsed flags cacheDir t st err H1 H2 Hp). simpl.
    split; [reflexivity|]. unfold invoked. fold up hist. by rewrite events_two.
Qed.

Lemma choose_remedy_throws v e :
  choose_remedy v = Throw e -> exists message, e = TypeError message.
Proof.
  unfold choose_remedy.
  destruct (index0 v) as [first|e1] eqn:Hi.
  - destruct (get_revision first) as [revision|e2] eqn:Hg; [discriminate|].
    intros [= <-]. destruct first; simpl in Hg; try discriminate; injection Hg as <-; eauto.
  - intros [= <-].
    destruct v as [| |b|n|txt|items|props]; simpl in Hi;
      try destruct txt; try destruct items; try destruct (own_property "0" props);
      simpl in Hi; try discriminate; injection Hi as <-; eauto.
Qed.

(** C5, as the code has it. After a failed upgrade, when the command
    [helm history <namespace> --output json] exits with another code than 0
    the deployment throws an error whose message holds the upgrade command
    line and the standard error of the failed upgrade; when it exits with 0
    and [JSON.parse] throws on its output, the deployment throws the
    parse-error message around the parser's own error. In both cases the
    upgrade and the history query are the only processes run: no purge, no
    rollback, no retry. Output on which [JSON.parse] returns a value, whatever
    its shape, never gives the parse-error message nor any other [Error] of
    the deployment's own. *)
Theorem history_query_fatal flags cacheDir t st :
  let command := upgrade_command (ctx st !! "tlsEmail") flags (chart_destDir cacheDir) in
  let up := ExecaShell command t in
  let st1 := after_process up st in
  let hist := ExecaShell ("helm history " +:+ chenamespace flags +:+ " --output json") t in
  let out := upgradeCheHelmChart flags cacheDir t st in
  code (answer up st) <> Some 0 ->
  (code (answer hist st1) <> Some 0 ->
     out.1 = Throw (Error ("Unable to execute helm command " +:+ command
                           +:+ " / " +:+ stderr (answer up st)))
     /\ invoked st out.2 = [up; hist])
  /\ (forall err,
        code (answer hist st1) = Some 0 ->
        JSON_parse (stdout (answer hist st1)) = inl err ->
        out.1 = Throw (Error ("Unable to grab helm history:" +:+ err))
        /\ invoked st out.2 = [up; hist])
  /\ (forall v,
        code (answer hist st1) = Some 0 ->
        JSON_parse (stdout (answer hist st1)) = inr v ->
        forall message, out.1 <> Throw (Error message)).
Proof.
  intros command up st1 hist out H1.
  destruct (history_query_cases flags cacheDir t st H1) as [Hfailed Hparse].
  split; [exact Hfailed|]. split; [exact Hparse|].
  intros v H2 Hp message. subst out.
  destruct (choose_remedy v) as [a|e] eqn:Hr.
  - rewrite (upgrade_remedy flags cacheDir t st v a H1 H2 Hp Hr).
    destruct (remedy_rejects _ _); simpl; [discriminate|].
    destruct (execa_failed _); discriminate.
  - rewrite (upgrade_no_remedy flags cacheDir t st v e H1 H2 Hp Hr). simpl.
    destruct (choose_remedy_throws v e Hr) as [m ->]. discriminate.
Qed.

(** C2. What the code does on an empty history: after a failed upgrade and a
    history output that parses to the empty list, reading the revision of the
    first entry throws a [TypeError] before the decision is taken. The
    deployment ends there: the upgrade and the history query are the only
    processes run, and no rollback is invoked, with or without a target. *)
Theorem empty_history_aborts flags cacheDir t st :
  let up := upgrade_invocation flags cacheDir t st in
  let st1 := after_process up st in
  let hist := history_invocation flags t in
  let out := upgradeCheHelmChart flags cacheDir t st in
  code (answer up st) <> Some 0 ->
  code (answer hist st1) = Some 0 ->
  JSON_parse (stdout (answer hist st1)) = inr (JArray []) ->
  out.1 = Throw (TypeError "Cannot read property 'revision' of undefined")
  /\ invoked st out.2 = [up; hist]
  /\ (forall revision, rollback_invocation flags revision t ∉ invoked st out.2).
Proof.
  intros up st1 hist out H1 H2 Hp. subst out.
  pose proof (choose_remedy_list []) as Hc. simpl in Hc.
  split; [|split].
  - by rewrite (upgrade_no_remedy flags cacheDir t st _ _ H1 H2 Hp Hc).
  - unfold invoked. by rewrite (events_no_remedy flags cacheDir t st _ _ H1 H2 Hp Hc).
  - intros revision.
    apply (invoked_no_remedy flags cacheDir t st _ _ _ H1 H2 Hp Hc). discriminate.
Qed.

(** ** The pipeline context *)

Create HintDb ctx_frame discriminated.

Lemma keeps_ctx_ret {A} (a : A) : keeps_ctx (W:=W) (ret a).
Proof. intros st. reflexivity. Qed.

Lemma keeps_ctx_throw {A} e : keeps_ctx (W:=W) (A:=A) (throw e).
Proof. intros st. reflexivity. Qed.

Lemma keeps_ctx_lift {A} (r : Result A) : keeps_ctx (W:=W) (lift r).
Proof. intros st. reflexivity. Qed.

Lemma keeps_ctx_bind {A B} (m : M A) (k : A -> M B) :
  keeps_ctx m -> (forall a, keeps_ctx (k a)) -> keeps_ctx (bind m k).
Proof.
  intros Hm Hk st. unfold bind. specialize (Hm st).
  destruct (m st) as [[a|e] st']; simpl in *; [|exact Hm].
  rewrite Hk. exact Hm.
Qed.

Lemma keeps_ctx_call {A} (f : W -> Result A * W) : keeps_ctx (call f).
Proof. intros st. unfold call. destruct (f (world st)). reflexivity. Qed.

Lemma keeps_ctx_ctx_get key : keeps_ctx (W:=W) (ctx_get key).
Proof. intros st. reflexivity. Qed.

Lemma keeps_ctx_append_title i suffix : keeps_ctx (W:=W) (append_title i suffix).
Proof. intros st. reflexivity. Qed.

Lemma keeps_ctx_run_process inv rej : keeps_ctx (run_process inv rej).
Proof.
  intros st. unfold run_process. destruct (spawn inv (world st)) as [r w].
  destruct (rej && execa_failed r); reflexivity.
Qed.

Lemma keeps_ctx_ncp source dest : keeps_ctx (W:=W) (ncp source dest).
Proof. intros st. reflexivity. Qed.

Lemma keeps_ctx_if {A} (b : bool) (m1 m2 : M A) :
  keeps_ctx m1 -> keeps_ctx m2 -> keeps_ctx (if b then m1 else m2).
Proof. destruct b; auto. Qed.

#[local] Hint Resolve keeps_ctx_ret keeps_ctx_throw keeps_ctx_lift keeps_ctx_call
  keeps_ctx_ctx_get keeps_ctx_append_title keeps_ctx_run_process keeps_ctx_ncp
  : ctx_frame.

(** Walks through a body made of binds, conditionals and the primitives. *)
Ltac frame_ctx :=
  repeat first
    [ progress auto with ctx_frame
    | apply keeps_ctx_bind; [|intros ?]
    | apply keeps_ctx_if
    | match goal with
      | |- keeps_ctx (match ?x with _ => _ end) => destruct x
      end ].

Lemma keeps_ctx_execa file args o : keeps_ctx (execa file args o).
Proof. unfold execa, execa_v. frame_ctx. Qed.

Lemma keeps_ctx_execa_shell command o : keeps_ctx (execa_shell command o).
Proof. unfold execa_shell. frame_ctx. Qed.

#[local] Hint Resolve keeps_ctx_execa keeps_ctx_execa_shell : ctx_frame.

Lemma keeps_ctx_tillerRoleBindingExist t : keeps_ctx (tillerRoleBindingExist t).
Proof. unfold tillerRoleBindingExist. frame_ctx. Qed.

Lemma keeps_ctx_createTillerRoleBinding t : keeps_ctx (createTillerRoleBinding t).
Proof. unfold createTillerRoleBinding. frame_ctx. Qed.

Lemma keeps_ctx_tillerServiceAccountExist t : keeps_ctx (tillerServiceAccountExist t).
Proof. unfold tillerServiceAccountExist. frame_ctx. Qed.

Lemma keeps_ctx_createTillerServiceAccount t : keeps_ctx (createTillerServiceAccount t).
Proof. unfold createTillerServiceAccount. frame_ctx. Qed.

Lemma keeps_ctx_createTillerRBAC path t : keeps_ctx (createTillerRBAC path t).
Proof. unfold createTillerRBAC. frame_ctx. Qed.

Lemma keeps_ctx_tillerServiceExist t : keeps_ctx (tillerServiceExist t).
Proof. unfold tillerServiceExist. frame_ctx. Qed.

Lemma keeps_ctx_createTillerService t : keeps_ctx (createTillerService t).
Proof. unfold createTillerService. frame_ctx. Qed.

Lemma keeps_ctx_prepareCheHelmChart flags cacheDir :
  keeps_ctx (prepareCheHelmChart flags cacheDir).
Proof. unfold prepareCheHelmChart. frame_ctx. Qed.

Lemma keeps_ctx_updateCheHelmChartDependencies cacheDir t :
  keeps_ctx (updateCheHelmChartDependencies cacheDir t).
Proof. unfold updateCheHelmChartDependencies. frame_ctx. Qed.

Lemma keeps_ctx_purgeHelmChart name t : keeps_ctx (purgeHelmChart name t).
Proof. unfold purgeHelmChart. frame_ctx. Qed.

#[local] Hint Resolve keeps_ctx_tillerRoleBindingExist keeps_ctx_createTillerRoleBinding
  keeps_ctx_tillerServiceAccountExist keeps_ctx_createTillerServiceAccount
  keeps_ctx_createTillerRBAC keeps_ctx_tillerServiceExist keeps_ctx_createTillerService
  keeps_ctx_prepareCheHelmChart keeps_ctx_updateCheHelmChartDependencies
  keeps_ctx_purgeHelmChart : ctx_frame.

Lemma keeps_ctx_upgradeCheHelmChart flags cacheDir t :
  keeps_ctx (upgradeCheHelmChart flags cacheDir t).
Proof. unfold upgradeCheHelmChart. frame_ctx. Qed.

#[local] Hint Resolve keeps_ctx_upgradeCheHelmChart : ctx_frame.

Lemma keeps_ctx_verify_helm_task i : keeps_ctx (verify_helm_task i).
Proof.
  intros st. unfold verify_helm_task.
  destruct (commandExists_sync "helm" (world st)); reflexivity.
Qed.

(** The TLS secret task: when it succeeds it has stored the [ACME_EMAIL] it
    read from the secret, and when it throws it has stored nothing. *)
Lemma tls_secret_task_ctx i st :
  let out := tls_secret_task i st in
  let w1 := (secretExist "che-tls" (world st)).2 in
  match out.1 with
  | Ok _ => exists email,
      (getSecret "che-tls" w1).1 = Ok (Some email)
      /\ ctx out.2 = <["tlsEmail" := email]> (ctx st)
  | Throw _ => ctx out.2 = ctx st
  end.
Proof.
  unfold tls_secret_task, bind, call, throw, ctx_set, append_title. simpl.
  destruct (secretExist "che-tls" (world st)) as [[b|e] w1]; simpl; [|reflexivity].
  destruct b; simpl; [|reflexivity].
  destruct (getSecret "che-tls" w1) as [[[email|]|e] w2]; simpl; try reflexivity.
  exists email. split; reflexivity.
Qed.

Lemma keeps_ctx_run_from steps :
  Forall (fun s : @Step W => forall i, keeps_ctx (run_step i s)) steps ->
  forall i, keeps_ctx (run_from i steps).
Proof.
  induction 1 as [|s steps Hs _ IH]; intros i; simpl.
  - apply keeps_ctx_ret.
  - apply keeps_ctx_bind; [apply Hs | intros _; apply IH].
Qed.

(** Every task but the TLS secret task keeps the context. *)
Lemma keeps_ctx_other_steps flags cacheDir (i : nat) s :
  startTasks flags cacheDir !! i = Some s -> i <> 1%nat ->
  forall j, keeps_ctx (run_step j s).
Proof.
  intros Hs Hi j.
  do 10 (destruct i as [|i];
    [ try done; injection Hs as <-;
      unfold run_step; simpl; try apply keeps_ctx_if; try apply keeps_ctx_ret;
      unfold cert_manager_task, role_binding_task, service_account_task, rbac_task,
        service_task, prepare_task, dependencies_task, deploy_task;
      solve [apply keeps_ctx_verify_helm_task | frame_ctx] |]).
  done.
Qed.

(** The one write of the pipeline: the context is as before, or holds the
    contact address in addition. *)
Lemma written_once_before {A B} (m : M A) (k : A -> M B) st :
  (forall st', ctx (m st').2 = ctx st'
               \/ exists email, ctx (m st').2 = <["tlsEmail" := email]> (ctx st')) ->
  (forall a, keeps_ctx (k a)) ->
  ctx (bind m k st).2 = ctx st
  \/ exists email, ctx (bind m k st).2 = <["tlsEmail" := email]> (ctx st).
Proof.
  intros Hm Hk. unfold bind. specialize (Hm st).
  destruct (m st) as [[a|e] st']; simpl in *; [|exact Hm].
  rewrite !Hk. exact Hm.
Qed.

Lemma written_once_after {A B} (m : M A) (k : A -> M B) st :
  keeps_ctx m ->
  (forall a st', ctx (k a st').2 = ctx st'
                 \/ exists email, ctx (k a st').2 = <["tlsEmail" := email]> (ctx st')) ->
  ctx (bind m k st).2 = ctx st
  \/ exists email, ctx (bind m k st).2 = <["tlsEmail" := email]> (ctx st).
Proof.
  intros Hm Hk. unfold bind. specialize (Hm st).
  destruct (m st) as [[a|e] st']; simpl in *; [|by left].
  rewrite <- !Hm. apply Hk.
Qed.

(** C10. Over a whole run of the pipeline the context is written only by the
    TLS secret task, and only at the key [tlsEmail]: each other task, enabled
    or not, leaves the context as it received it; the TLS secret task leaves it
    unchanged or stores the contact address under [tlsEmail]; so does the
    whole run; and a copy that ends in the background leaves it unchanged. *)
Theorem context_written_once flags cacheDir :
  (forall (i : nat) s, startTasks flags cacheDir !! i = Some s -> i <> 1%nat ->
     forall j st, ctx (run_step j s st).2 = ctx st)
  /\ (forall j st,
        ctx (run_step j (mkStep "Check for TLS secret prerequisites" (tls flags)
                           tls_secret_task) st).2 = ctx st
        \/ exists email,
             ctx (run_step j (mkStep "Check for TLS secret prerequisites" (tls flags)
                                tls_secret_task) st).2 = <["tlsEmail" := email]> (ctx st))
  /\ (forall st,
        let final := (run_tasks (startTasks flags cacheDir) st).2 in
        (ctx final = ctx st \/ exists email, ctx final = <["tlsEmail" := email]> (ctx st))
        /\ forall key, key <> "tlsEmail" -> ctx final !! key = ctx st !! key)
  /\ (forall c st, ctx (complete_copy c st).2 = ctx st).
Proof.
  assert (Htls : forall j st,
    ctx (run_step j (mkStep "Check for TLS secret prerequisites" (tls flags)
                       tls_secret_task) st).2 = ctx st
    \/ exists email,
         ctx (run_step j (mkStep "Check for TLS secret prerequisites" (tls flags)
                            tls_secret_task) st).2 = <["tlsEmail" := email]> (ctx st)).
  { intros j st. unfold run_step. simpl. destruct (tls flags); [|by left].
    pose proof (tls_secret_task_ctx j st) as Hout. simpl in Hout.
    destruct (tls_secret_task j st).1; [|by left].
    destruct Hout as (email & _ & ->). right. by exists email. }
  assert (Hrun : forall st,
    let final := (run_tasks (startTasks flags cacheDir) st).2 in
    ctx final = ctx st \/ exists email, ctx final = <["tlsEmail" := email]> (ctx st)).
  { intros st final. subst final. unfold run_tasks.
    set (st0 := set_titles _ st). change (ctx st) with (ctx st0).
    assert (Hrest : keeps_ctx (run_from 2 (drop 2 (startTasks flags cacheDir)))).
    { apply keeps_ctx_run_from. apply Forall_forall. intros s Hin j.
      apply list_elem_of_lookup in Hin as [k Hk].
      rewrite lookup_drop in Hk.
      apply (keeps_ctx_other_steps flags cacheDir (2 + k) s Hk). lia. }
    change (run_from 0 (startTasks flags cacheDir)) with
      (bind (run_step 0 (mkStep "Verify if helm is installed" true verify_helm_task))
         (fun _ => bind (run_step 1 (mkStep "Check for TLS secret prerequisites"
                                       (tls flags) tls_secret_task))
                     (fun _ => run_from 2 (drop 2 (startTasks flags cacheDir))))).
    apply written_once_after; [apply keeps_ctx_verify_helm_task|].
    intros _ sta. apply written_once_before; [apply Htls | intros _; apply Hrest]. }
  split; [|split; [|split]].
  - intros i s Hs Hi j st. by apply (keeps_ctx_other_steps flags cacheDir i s).
  - exact Htls.
  - intros st final. split; [apply Hrun|].
    intros key Hkey. destruct (Hrun st) as [Heq|[email Heq]]; subst final; rewrite Heq.
    + reflexivity.
    + by apply lookup_insert_ne.
  - intros c st. unfold complete_copy.
    destruct (ncp_copy _ _ _) as [err w]. reflexivity.
Qed.

(** ** The text of the upgrade command *)

Lemma append_cons a u1 u2 : String a u1 +:+ u2 = String a (u1 +:+ u2).
Proof. reflexivity. Qed.

Lemma append_nil u1 : "" +:+ u1 = u1.
Proof. reflexivity. Qed.

Lemma append_assoc u1 u2 u3 : (u1 +:+ u2) +:+ u3 = u1 +:+ (u2 +:+ u3).
Proof.
  induction u1 as [|a u1 IH]; [reflexivity|].
  rewrite !append_cons. by rewrite IH.
Qed.

Lemma starts_with_append m b : starts_with m (m +:+ b) = true.
Proof.
  induction m as [|a m IH]; [reflexivity|].
  rewrite append_cons. simpl. by rewrite Ascii.eqb_refl.
Qed.

Lemma occurs_b_complete m u1 : occurs m u1 -> occurs_b m u1 = true.
Proof.
  intros (a & b & ->). induction a as [|d a IH].
  - rewrite append_nil. pose proof (starts_with_append m b) as Hs.
    destruct (m +:+ b); simpl; by rewrite Hs.
  - rewrite append_cons. simpl. rewrite IH. apply orb_true_r.
Qed.

Lemma not_occurs m u1 : occurs_b m u1 = false -> ~ occurs m u1.
Proof. intros Hb Ho. apply occurs_b_complete in Ho. congruence. Qed.

Lemma occurs_cons m d u1 : occurs m u1 -> occurs m (String d u1).
Proof. intros (a & b & ->). exists (String d a), b. reflexivity. Qed.

Lemma starts_with_sound m u1 : starts_with m u1 = true -> exists b, u1 = m +:+ b.
Proof.
  revert u1. induction m as [|a m IH]; intros u1 Hs; [by exists u1|].
  destruct u1 as [|c u1]; simpl in Hs; [discriminate|].
  apply andb_prop in Hs as [Hac Hs]. apply Ascii.eqb_eq in Hac as ->.
  destruct (IH u1 Hs) as [b ->]. by exists b.
Qed.

Lemma occurs_b_sound m u1 : occurs_b m u1 = true -> occurs m u1.
Proof.
  induction u1 as [|c u1 IH]; simpl; intros Hb.
  - rewrite orb_false_r in Hb. destruct (starts_with_sound m "" Hb) as [b ->].
    by exists "", b.
  - apply orb_prop in Hb as [Hs|Hb].
    + destruct (starts_with_sound m _ Hs) as [b ->]. by exists "", b.
    + by apply occurs_cons, IH.
Qed.

Lemma occurs_trans m1 m2 u1 : occurs m1 m2 -> occurs m2 u1 -> occurs m1 u1.
Proof.
  intros (a1 & b1 & ->) (a2 & b2 & ->).
  exists (a2 +:+ a1), (b1 +:+ b2). by rewrite !append_assoc.
Qed.

(** A text that starts with [m] and is cut at a character foreign to [m]. *)
Lemma prefix_before_separator m b x c y :
  char_in c m = false ->
  m +:+ b = x +:+ String c y ->
  exists x', x = m +:+ x'.
Proof.
  intros Hc. revert x. induction m as [|d m IH]; intros x Heq.
  - by exists x.
  - simpl in Hc. apply orb_false_elim in Hc as [Hcd Hcm].
    destruct x as [|d' x].
    + rewrite append_cons, append_nil in Heq. injection Heq as -> _.
      by rewrite Ascii.eqb_refl in Hcd.
    + rewrite !append_cons in Heq. injection Heq as <- Heq.
      destruct (IH Hcm x Heq) as [x' ->]. by exists x'.
Qed.

(** An occurrence cannot span a character foreign to [m]. *)
Lemma occurs_separator m x c y :
  char_in c m = false ->
  occurs m (x +:+ String c y) -> occurs m x \/ occurs m y.
Proof.
  intros Hc (a & b & Heq). revert x Heq.
  induction a as [|d a IH]; intros x Heq.
  - rewrite append_nil in Heq. symmetry in Heq.
    destruct (prefix_before_separator m b x c y Hc Heq) as [x' ->].
    left. by exists "", x'.
  - destruct x as [|d' x].
    + rewrite append_cons, append_nil in Heq. injection Heq as _ ->.
      right. by exists a, b.
    + rewrite !append_cons in Heq. injection Heq as _ Heq.
      destruct (IH x Heq) as [Hx|Hy]; [left; by apply occurs_cons|by right].
Qed.

Lemma glue_free m pieces last :
  Forall (fun pc => ~ occurs m pc.1 /\ char_in pc.2 m = false) pieces ->
  ~ occurs m last ->
  ~ occurs m (glue pieces last).
Proof.
  induction 1 as [|[p c] pieces [Hp Hc] _ IH]; intros Hlast; [exact Hlast|].
  simpl in *. intros Ho.
  apply occurs_separator in Ho as [Ho|Ho]; [tauto|tauto|exact Hc].
Qed.

(** The command is its pieces, glued. *)
Lemma upgrade_command_pieces tlsEmail flags destDir :
  upgrade_command tlsEmail flags destDir
  = glue (command_pieces tlsEmail flags destDir) destDir.
Proof.
  unfold upgrade_command, command_pieces, command_overrides, command_values,
    setOptions, multiUserFlag, tlsFlag.
  destruct (tls flags), (multiuser flags); rewrite ?append_assoc; reflexivity.
Qed.

Ltac in_list := solve [repeat first [apply list_elem_of_here | apply list_elem_of_further]].

(** A piece is free of the marker: a configuration text by assumption, a fixed
    text by evaluation; its separator is foreign to the marker. *)
Ltac piece_free Hfree :=
  split;
  [ first [ apply Hfree; unfold config_texts; in_list
          | apply not_occurs; vm_compute; reflexivity ]
  | vm_compute; reflexivity ].

Ltac pieces_free Hfree :=
  repeat first [ apply Forall_nil_2 | apply Forall_cons; split; [piece_free Hfree|] ].

Lemma multi_user_marker destDir : occurs "multi-user.yaml" (multi_user_values destDir).
Proof. exists ("-f " +:+ destDir +:+ "values/"), "". by rewrite !append_assoc. Qed.

Lemma tls_marker destDir : occurs "tls.yaml" (tls_values destDir).
Proof. exists ("-f " +:+ destDir +:+ "values/"), "". by rewrite !append_assoc. Qed.

(** Without the multi-user flag the command holds the multi-user values file
    only if a configuration text brings it. *)
Lemma no_multi_user_values tlsEmail flags destDir :
  (forall text, text ∈ config_texts tlsEmail flags destDir ->
                ~ occurs "multi-user.yaml" text) ->
  multiuser flags = false ->
  ~ occurs (multi_user_values destDir) (upgrade_command tlsEmail flags destDir).
Proof.
  intros Hfree Hoff Ho.
  apply (occurs_trans _ _ _ (multi_user_marker destDir)) in Ho.
  rewrite upgrade_command_pieces in Ho. revert Ho.
  apply glue_free; [|apply Hfree; unfold config_texts; in_list].
  unfold command_pieces, command_head, command_overrides, command_middle, command_values.
  rewrite Hoff. destruct (tls flags); simpl; pieces_free Hfree.
Qed.

Lemma no_tls_values tlsEmail flags destDir :
  (forall text, text ∈ config_texts tlsEmail flags destDir -> ~ occurs "tls.yaml" text) ->
  tls flags = false ->
  ~ occurs (tls_values destDir) (upgrade_command tlsEmail flags destDir).
Proof.
  intros Hfree Hoff Ho.
  apply (occurs_trans _ _ _ (tls_marker destDir)) in Ho.
  rewrite upgrade_command_pieces in Ho. revert Ho.
  apply glue_free; [|apply Hfree; unfold config_texts; in_list].
  unfold command_pieces, command_head, command_overrides, command_middle, command_values.
  rewrite Hoff. destruct (multiuser flags); simpl; pieces_free Hfree.
Qed.

Lemma with_multi_user_values tlsEmail flags destDir :
  multiuser flags = true ->
  occurs (multi_user_values destDir) (upgrade_command tlsEmail flags destDir).
Proof.
  intros Hon.
  exists ("helm upgrade --install che --force --namespace " +:+ chenamespace flags
          +:+ " --set global.ingressDomain=" +:+ domain flags
          +:+ " " +:+ setOptions tlsEmail flags
          +:+ " --set cheImage=" +:+ cheimage flags
          +:+ " --set global.cheWorkspacesNamespace=" +:+ chenamespace flags
          +:+ " --set che.workspace.devfileRegistryUrl=" +:+ devfile_registry_url flags
          +:+ " --set che.workspace.pluginRegistryUrl=" +:+ plugin_registry_url flags
          +:+ " "),
         (" " +:+ tlsFlag flags destDir +:+ " " +:+ destDir).
  unfold upgrade_command, multiUserFlag, multi_user_values. rewrite Hon.
  by rewrite !append_assoc.
Qed.

Lemma with_tls_values tlsEmail flags destDir :
  tls flags = true ->
  occurs (tls_values destDir) (upgrade_command tlsEmail flags destDir)
  /\ occurs (tls_overrides flags (template_text tlsEmail))
       (upgrade_command tlsEmail flags destDir).
Proof.
  intros Hon. split.
  - exists ("helm upgrade --install che --force --namespace " +:+ chenamespace flags
            +:+ " --set global.ingressDomain=" +:+ domain flags
            +:+ " " +:+ setOptions tlsEmail flags
            +:+ " --set cheImage=" +:+ cheimage flags
            +:+ " --set global.cheWorkspacesNamespace=" +:+ chenamespace flags
            +:+ " --set che.workspace.devfileRegistryUrl=" +:+ devfile_registry_url flags
            +:+ " --set che.workspace.pluginRegistryUrl=" +:+ plugin_registry_url flags
            +:+ " " +:+ multiUserFlag flags destDir +:+ " "),
           (" " +:+ destDir).
    unfold upgrade_command, tlsFlag, tls_values. rewrite Hon.
    by rewrite !append_assoc.
  - exists ("helm upgrade --install che --force --namespace " +:+ chenamespace flags
            +:+ " --set global.ingressDomain=" +:+ domain flags +:+ " "),
           (" --set cheImage=" +:+ cheimage flags
            +:+ " --set global.cheWorkspacesNamespace=" +:+ chenamespace flags
            +:+ " --set che.workspace.devfileRegistryUrl=" +:+ devfile_registry_url flags
            +:+ " --set che.workspace.pluginRegistryUrl=" +:+ plugin_registry_url flags
            +:+ " " +:+ multiUserFlag flags destDir
            +:+ " " +:+ tlsFlag flags destDir
            +:+ " " +:+ destDir).
    unfold upgrade_command, setOptions, tls_overrides. rewrite Hon.
    by rewrite !append_assoc.
Qed.

(** The deployment starts with the upgrade command. *)
Lemma upgrade_first_process flags cacheDir t st :
  head (invoked st (upgradeCheHelmChart flags cacheDir t st).2)
  = Some (upgrade_invocation flags cacheDir t st).
Proof.
  set (up := upgrade_invocation flags cacheDir t st).
  set (hist := history_invocation flags t).
  set (st1 := after_process up st).
  unfold invoked.
  destruct (decide (code (answer up st) = Some 0)) as [H1|H1].
  { rewrite (upgrade_success flags cacheDir t st H1). simpl.
    fold up. by rewrite events_one. }
  destruct (decide (code (answer hist st1) = Some 0)) as [H2|H2]; cycle 1.
  { rewrite (upgrade_history_failed flags cacheDir t st H1 H2). simpl.
    fold up hist. by rewrite events_two. }
  destruct (JSON_parse (stdout (answer hist st1))) as [err|v] eqn:Hp.
  { rewrite (upgrade_history_unparsed flags cacheDir t st err H1 H2 Hp). simpl.
    fold up hist. by rewrite events_two. }
  destruct (choose_remedy v) as [a|e] eqn:Hr.
  - by rewrite (events_remedy flags cacheDir t st v a H1 H2 Hp Hr).
  - by rewrite (events_no_remedy flags cacheDir t st v e H1 H2 Hp Hr).
Qed.

Lemma bind_ok {A B} (m : M A) (k : A -> M B) st b st' :
  bind m k st = (Ok b, st') ->
  exists a st1, m st = (Ok a, st1) /\ k a st1 = (Ok b, st').
Proof.
  unfold bind. destruct (m st) as [[a|e] st1]; [|discriminate].
  intros Hk. by exists a, st1.
Qed.

(** When the first nine tasks have run with TLS set, the context holds the
    contact address the TLS secret task read from the secret. *)
Lemma tls_email_at_deployment flags cacheDir st0 st :
  tls flags = true ->
  run_from 0 (take 9 (startTasks flags cacheDir)) st0 = (Ok tt, st) ->
  exists email,
    (getSecret "che-tls" (secretExist "che-tls" (world st0)).2).1 = Ok (Some email)
    /\ ctx st !! "tlsEmail" = Some email.
Proof.
  intros Htls Hrun.
  change (run_from 0 (take 9 (startTasks flags cacheDir))) with
    (bind (run_step 0 (mkStep "Verify if helm is installed" true verify_helm_task))
       (fun _ => bind (run_step 1 (mkStep "Check for TLS secret prerequisites"
                                     (tls flags) tls_secret_task))
                   (fun _ => run_from 2 (drop 2 (take 9 (startTasks flags cacheDir))))))
    in Hrun.
  apply bind_ok in Hrun as ([] & sta & H0 & Hrun).
  apply bind_ok in Hrun as ([] & stb & H1 & Hrun).
  assert (sta = st0) as ->.
  { unfold run_step, verify_helm_task in H0. simpl in H0.
    destruct (commandExists_sync "helm" (world st0)); congruence. }
  unfold run_step in H1. simpl in H1. rewrite Htls in H1.
  pose proof (tls_secret_task_ctx 1 st0) as Hctx. simpl in Hctx. rewrite H1 in Hctx.
  simpl in Hctx. destruct Hctx as (email & Hsecret & Hctx).
  exists email. split; [exact Hsecret|].
  assert (Hrest : keeps_ctx (run_from 2 (drop 2 (take 9 (startTasks flags cacheDir))))).
  { apply keeps_ctx_run_from. apply Forall_forall. intros s Hin j.
    apply list_elem_of_lookup in Hin as [k Hk].
    rewrite lookup_drop in Hk. apply lookup_take_Some in Hk as [Hk _].
    apply (keeps_ctx_other_steps flags cacheDir (2 + k) s Hk). lia. }
  specialize (Hrest stb). rewrite Hrun in Hrest. simpl in Hrest.
  rewrite Hrest, Hctx. apply lookup_insert_eq.
Qed.

(** C6, as the code has it. The upgrade command the deployment runs holds the
    multi-user values-file flag whenever the multi-user flag is set, and the TLS
    values-file flag and the TLS overrides (domain and contact address)
    whenever the TLS flag is set; the contact address is the one in the
    context, which in a pipeline run is the one the TLS secret task stored.
    Conversely the command holds the multi-user (the TLS) values-file flag only
    if the flag is set, provided none of the texts the configuration puts into
    the command itself holds the name of that values file. *)
Theorem upgrade_command_flags flags cacheDir st :
  let destDir := chart_destDir cacheDir in
  let tlsEmail := ctx st !! "tlsEmail" in
  let command := upgrade_command tlsEmail flags destDir in
  (forall t, head (invoked st (upgradeCheHelmChart flags cacheDir t st).2)
             = Some (ExecaShell command t))
  /\ (multiuser flags = true -> occurs (multi_user_values destDir) command)
  /\ (tls flags = true ->
      occurs (tls_values destDir) command
      /\ occurs (tls_overrides flags (template_text tlsEmail)) command)
  /\ ((forall text, text ∈ config_texts tlsEmail flags destDir ->
                    ~ occurs "multi-user.yaml" text) ->
      occurs (multi_user_values destDir) command -> multiuser flags = true)
  /\ ((forall text, text ∈ config_texts tlsEmail flags destDir ->
                    ~ occurs "tls.yaml" text) ->
      occurs (tls_values destDir) command -> tls flags = true)
  /\ (tls flags = true ->
      forall st0,
        run_from 0 (take 9 (startTasks flags cacheDir)) st0 = (Ok tt, st) ->
        exists email,
          (getSecret "che-tls" (secretExist "che-tls" (world st0)).2).1 = Ok (Some email)
          /\ tlsEmail = Some email).
Proof.
  intros destDir tlsEmail command.
  split; [|split; [|split; [|split; [|split]]]].
  - intros t. apply upgrade_first_process.
  - apply with_multi_user_values.
  - apply with_tls_values.
  - intros Hfree Ho. destruct (multiuser flags) eqn:Hm; [reflexivity|].
    destruct (no_multi_user_values tlsEmail flags destDir Hfree Hm Ho).
  - intros Hfree Ho. destruct (tls flags) eqn:Ht; [reflexivity|].
    destruct (no_tls_values tlsEmail flags destDir Hfree Ht Ho).
  - intros Htls st0 Hrun. by apply (tls_email_at_deployment flags cacheDir st0 st).
Qed.

(** ** Chart staging *)

(** C9. What the code does when the copy fails: [ncp] only starts the copy, so
    once the destination directory exists [prepareCheHelmChart] returns
    normally with the copy still pending, whatever the copy will report, and
    the task marks itself done. The error of the copy is thrown later by the
    callback, in the event loop, when the copy ends; it never reaches the
    caller of [prepareCheHelmChart]. *)
Theorem copy_error_not_propagated flags cacheDir (j : nat) st w1 w2 e :
  let srcDir := chart_srcDir flags in
  let destDir := chart_destDir cacheDir in
  let st1 := add_pending (mkNcp srcDir destDir) (set_world w1 st) in
  mkdirp destDir (world st) = (Ok tt, w1) ->
  ncp_copy srcDir destDir w1 = (Some e, w2) ->
  prepareCheHelmChart flags cacheDir st = (Ok tt, st1)
  /\ (prepare_task flags cacheDir j st).1 = Ok tt
  /\ complete_copy (mkNcp srcDir destDir) st1 = (Throw e, set_world w2 st1).
Proof.
  intros srcDir destDir st1 Hmk Hcopy.
  assert (Hprep : prepareCheHelmChart flags cacheDir st = (Ok tt, st1)).
  { unfold prepareCheHelmChart, bind, call, ncp. fold destDir srcDir.
    rewrite Hmk. reflexivity. }
  split; [exact Hprep|split].
  - unfold prepare_task, bind. rewrite Hprep. reflexivity.
  - unfold complete_copy. simpl. rewrite Hcopy. reflexivity.
Qed.

Lemma world_run_process inv rej st :
  world (run_process inv rej st).2 = (spawn inv (world st)).2.
Proof.
  unfold run_process. destruct (spawn inv (world st)) as [r w]. simpl.
  destruct (rej && execa_failed r); reflexivity.
Qed.

Lemma world_updateCheHelmChartDependencies cacheDir t st :
  world (updateCheHelmChartDependencies cacheDir t st).2
  = (spawn (ExecaShell (dependencies_command (chart_destDir cacheDir)) t) (world st)).2.
Proof.
  unfold updateCheHelmChartDependencies, execa_shell, bind. simpl.
  pose proof (world_run_process
                (ExecaShell (dependencies_command (chart_destDir cacheDir)) t) true st) as Hw.
  destruct (run_process _ true st) as [[r|e] st']; exact Hw.
Qed.

Lemma world_prepareCheHelmChart flags cacheDir st :
  world (prepareCheHelmChart flags cacheDir st).2
  = (mkdirp (chart_destDir cacheDir) (world st)).2.
Proof.
  unfold prepareCheHelmChart, bind, call, ncp.
  destruct (mkdirp (chart_destDir cacheDir) (world st)) as [[[]|e] w]; reflexivity.
Qed.

Lemma world_complete_copy c st :
  world (complete_copy c st).2 = (ncp_copy (ncp_source c) (ncp_dest c) (world st)).2.
Proof.
  unfold complete_copy. destruct (ncp_copy _ _ _) as [err w]. reflexivity.
Qed.

Lemma under_trans d1 d2 p : under d1 d2 -> under d2 p -> under d1 p.
Proof.
  intros [rel1 ->] [rel2 ->]. exists (rel1 +:+ rel2). apply append_assoc.
Qed.

(** Two directories that hold a common path: one lies inside the other. *)
Lemma prefixes_comparable d1 rel1 d2 rel2 :
  d1 +:+ rel1 = d2 +:+ rel2 -> under d1 d2 \/ under d2 d1.
Proof.
  revert d2. induction d1 as [|a d1 IH]; intros d2 Heq.
  - left. by exists d2.
  - destruct d2 as [|b d2].
    + right. by exists (String a d1).
    + rewrite !append_cons in Heq. injection Heq as <- Heq.
      destruct (IH d2 Heq) as [[x ->]|[x ->]]; [left|right]; by exists x.
Qed.

(** Staging leaves every node under a directory [root] as it was, when the
    destination directory and [root] lie outside each other. *)
Lemma staging_frame `{!WritesWhereTold W} flags cacheDir root :
  let destDir := chart_destDir cacheDir in
  ~ under root destDir -> ~ under destDir root ->
  forall st st', rtc (staging_step flags cacheDir) st st' ->
  forall p, under root p -> fs_read (world st') p = fs_read (world st) p.
Proof.
  intros destDir Hsd Hds st st' Hsteps p Hp.
  induction Hsteps as [st|st st1 st2 Hstep _ IH]; [reflexivity|].
  rewrite IH. clear IH st2.
  assert (~ under destDir p) as Hout.
  { intros Hd. destruct Hp as [rel1 ->], Hd as [rel2 Heq].
    destruct (prefixes_comparable _ _ _ _ Heq); tauto. }
  destruct Hstep as [st|st|t st].
  + rewrite world_prepareCheHelmChart. apply mkdirp_frame.
    intros [rest Hrest]. apply Hsd. fold destDir in Hrest.
    apply (under_trans _ p); [exact Hp | by exists rest].
  + rewrite world_complete_copy. simpl. by apply ncp_copy_frame.
  + rewrite world_updateCheHelmChartDependencies. by apply dependencies_frame.
Qed.

(** C8, as the code has it. Staging starts the copy from the source chart
    directory to the destination directory and runs the dependency update
    against the destination directory only. With tools that write only where
    they are pointed, and provided the templates directory of the
    configuration and the destination directory lie outside each other, every
    node under the templates directory is after staging what it was before,
    in whatever order the actions of staging take place. The same holds of the
    source chart directory alone when it and the destination directory lie
    outside each other. *)
Theorem staging_keeps_source `{!WritesWhereTold W} flags cacheDir :
  let srcDir := path_join (templates flags) "/kubernetes/helm/che/" in
  let destDir := path_join cacheDir "/templates/kubernetes/helm/che/" in
  (forall st w, mkdirp destDir (world st) = (Ok tt, w) ->
     pending (prepareCheHelmChart flags cacheDir st).2
     = pending st ++ [mkNcp srcDir destDir])
  /\ (forall t st,
        invoked st (updateCheHelmChartDependencies cacheDir t st).2
        = [ExecaShell ("helm dependencies update --skip-refresh " +:+ destDir) t])
  /\ (~ under (templates flags) destDir -> ~ under destDir (templates flags) ->
      forall st st', rtc (staging_step flags cacheDir) st st' ->
      forall p, under (templates flags) p ->
                fs_read (world st') p = fs_read (world st) p)
  /\ (~ under srcDir destDir -> ~ under destDir srcDir ->
      forall st st', rtc (staging_step flags cacheDir) st st' ->
      forall p, under srcDir p -> fs_read (world st') p = fs_read (world st) p).
Proof.
  intros srcDir destDir. split; [|split; [|split]].
  - intros st w Hmk. unfold prepareCheHelmChart, bind, call, ncp.
    change (chart_destDir cacheDir) with destDir.
    change (chart_srcDir flags) with srcDir. rewrite Hmk. reflexivity.
  - intros t st. unfold updateCheHelmChartDependencies, bind, execa_shell. simpl.
    rewrite run_process_reject. unfold invoked.
    change (chart_destDir cacheDir) with destDir.
    destruct (execa_failed _); simpl; by rewrite events_one.
  - exact (staging_frame flags cacheDir (templates flags)).
  - exact (staging_frame flags cacheDir srcDir).
Qed.

(** C7. Each of the three existence checks (cluster role binding, service
    account, service) runs its read command and returns [true] when the exit
    code is 0 and [false] for every other outcome of the command; it never
    throws, whatever the command does. *)
Theorem existence_checks_total (t : Z) st :
  tillerRoleBindingExist t st
    = (Ok (bool_decide (code (answer (role_binding_get t) st) = Some 0)),
       after_process (role_binding_get t) st)
  /\ tillerServiceAccountExist t st
    = (Ok (bool_decide (code (answer (service_account_get t) st) = Some 0)),
       after_process (service_account_get t) st)
  /\ tillerServiceExist t st
    = (Ok (bool_decide (code (answer (service_get t) st) = Some 0)),
       after_process (service_get t) st).
Proof.
  unfold tillerRoleBindingExist, tillerServiceAccountExist, tillerServiceExist,
    role_binding_get, service_account_get, service_get, execa, execa_v, bind; simpl.
  rewrite !run_process_keep. unfold code_is_0, ret.
  repeat split; case_bool_decide; reflexivity.
Qed.

(** ** Further properties of the deployment *)

(** X1. When the first upgrade exits with 0 the deployment returns normally and
    that upgrade is the only process it has run: no history query, no remedy,
    no second upgrade. *)
Theorem deployment_success flags cacheDir t st :
  let up := upgrade_invocation flags cacheDir t st in
  let out := upgradeCheHelmChart flags cacheDir t st in
  code (answer up st) = Some 0 ->
  out.1 = Ok tt /\ events st out.2 = [(up, answer up st)].
Proof.
  intros up out H1. subst out.
  rewrite (upgrade_success flags cacheDir t st H1). simpl.
  split; [reflexivity|]. apply events_one.
Qed.

(** X2. When the recovery rolls back and the rollback fails (it times out or
    exits with another code than 0), the deployment throws the error of the
    rollback and the upgrade is not run again: the upgrade, the history query
    and the rollback are the only processes. *)
Theorem rollback_failure_is_fatal flags cacheDir t st first rest revision :
  let up := upgrade_invocation flags cacheDir t st in
  let st1 := after_process up st in
  let hist := history_invocation flags t in
  let st2 := after_process hist st1 in
  let back := rollback_invocation flags revision t in
  let out := upgradeCheHelmChart flags cacheDir t st in
  code (answer up st) <> Some 0 ->
  code (answer hist st1) = Some 0 ->
  JSON_parse (stdout (answer hist st1)) = inr (JArray (first :: rest)) ->
  get_revision first = Ok revision ->
  revision <> JString "1" ->
  execa_failed (answer back st2) = true ->
  out.1 = Throw (ExecaError (answer back st2))
  /\ invoked st out.2 = [up; hist; back].
Proof.
  intros up st1 hist st2 back out H1 H2 Hp Hrev Hne Hfail. subst out.
  assert (Hr : choose_remedy (JArray (first :: rest)) = Ok (Rollback revision)).
  { rewrite choose_remedy_list, Hrev.
    destruct (is_string_1 revision) eqn:H1s; [|reflexivity].
    apply is_string_1_true in H1s. contradiction. }
  split.
  - rewrite (upgrade_remedy flags cacheDir t st _ _ H1 H2 Hp Hr). simpl.
    fold up st1 hist st2 back. by rewrite Hfail.
  - unfold invoked. rewrite (events_remedy flags cacheDir t st _ _ H1 H2 Hp Hr). simpl.
    fold up st1 hist st2 back. by rewrite Hfail.
Qed.

(** X3. The shape of every deployment: it runs the upgrade alone; or the
    upgrade and the history query; or those two and one remedy (the purge, or a
    rollback); or those three and the upgrade once more. Nothing else is ever
    run, whatever the processes answer. *)
Theorem deployment_shape flags cacheDir t st :
  let up := upgrade_invocation flags cacheDir t st in
  let hist := history_invocation flags t in
  let ran := invoked st (upgradeCheHelmChart flags cacheDir t st).2 in
  ran = [up]
  \/ ran = [up; hist]
  \/ exists remedy,
       (remedy = purge_invocation flags
        \/ exists revision, remedy = rollback_invocation flags revision t)
       /\ (ran = [up; hist; remedy] \/ ran = [up; hist; remedy; up]).
Proof.
  intros up hist ran. subst ran. unfold invoked.
  set (st1 := after_process up st).
  destruct (decide (code (answer up st) = Some 0)) as [H1|H1].
  { left. rewrite (upgrade_success flags cacheDir t st H1). simpl.
    fold up. by rewrite events_one. }
  right.
  destruct (decide (code (answer hist st1) = Some 0)) as [H2|H2]; cycle 1.
  { left. rewrite (upgrade_history_failed flags cacheDir t st H1 H2). simpl.
    fold up hist. by rewrite events_two. }
  destruct (JSON_parse (stdout (answer hist st1))) as [err|v] eqn:Hp.
  { left. rewrite (upgrade_history_unparsed flags cacheDir t st err H1 H2 Hp). simpl.
    fold up hist. by rewrite events_two. }
  destruct (choose_remedy v) as [a|e] eqn:Hr; cycle 1.
  { left. by rewrite (events_no_remedy flags cacheDir t st v e H1 H2 Hp Hr). }
  right. exists (remedy_invocation flags t a). split.
  - destruct a as [|revision]; [by left|right; by exists revision].
  - rewrite (events_remedy flags cacheDir t st v a H1 H2 Hp Hr). fold up hist.
    destruct (remedy_rejects _ _); [by left|by right].
Qed.

Lemma choose_remedy_no_revision v :
  if no_revision v then is_TypeError (choose_remedy v)
  else exists a, choose_remedy v = Ok a.
Proof.
  unfold is_TypeError, choose_remedy.
  destruct v as [| |b|n|txt|items|props]; simpl; eauto.
  - destruct txt as [|c txt]; simpl; eauto.
  - destruct items as [|first items]; simpl; eauto.
    destruct first; simpl; eauto.
  - destruct (own_property "0" props) as [first|]; simpl; eauto.
    destruct first; simpl; eauto.
Qed.

(** X4. After a failed upgrade and a history output that is valid JSON, the
    deployment throws a [TypeError] exactly when no revision can be read from
    the parsed value: it is [null], a number, a boolean, an empty text, an
    empty list, an object without the key 0, or its first element is [null].
    Then nothing runs after the history query. *)
Theorem no_revision_aborts flags cacheDir t st v :
  let up := upgrade_invocation flags cacheDir t st in
  let st1 := after_process up st in
  let hist := history_invocation flags t in
  let out := upgradeCheHelmChart flags cacheDir t st in
  code (answer up st) <> Some 0 ->
  code (answer hist st1) = Some 0 ->
  JSON_parse (stdout (answer hist st1)) = inr v ->
  (is_TypeError out.1 <-> no_revision v = true)
  /\ (no_revision v = true -> invoked st out.2 = [up; hist]).
Proof.
  intros up st1 hist out H1 H2 Hp. subst out.
  pose proof (choose_remedy_no_revision v) as Hv.
  destruct (no_revision v).
  - destruct Hv as [message Hr]. split.
    + rewrite (upgrade_no_remedy flags cacheDir t st v _ H1 H2 Hp Hr). simpl.
      split; [reflexivity|by exists message].
    + intros _. unfold invoked.
      by rewrite (events_no_remedy flags cacheDir t st v _ H1 H2 Hp Hr).
  - destruct Hv as [a Hr].
    rewrite (upgrade_remedy flags cacheDir t st v a H1 H2 Hp Hr). simpl.
    split; [|discriminate]. split; [|discriminate].
    intros [message Hmsg]. exfalso.
    destruct (remedy_rejects _ _); simpl in Hmsg; [discriminate|].
    destruct (execa_failed _); discriminate.
Qed.

(** ** Further properties of the provisioning tasks *)

Lemma events_set_titles st st' l : events st (set_titles l st') = events st st'.
Proof. reflexivity. Qed.

Lemma invoked_app st st' l : trace st' = trace st ++ l -> invoked st st' = l.*1.
Proof. intros Heq. unfold invoked. by rewrite (events_app st st' l Heq). Qed.

Ltac new_invoked l :=
  apply (invoked_app _ _ l); simpl; rewrite ?app_nil_r, <- ?app_assoc; reflexivity.

(** X5. The role binding and the service account are created only when their
    read command did not exit with 0. When it did, the task runs nothing else
    and marks itself as already existing. Otherwise the create command runs
    once, after the check: when it fails the task throws its error and leaves
    its title alone, when it succeeds the task marks itself done. *)
Theorem create_only_when_absent (j : nat) st :
  (let get := role_binding_get 30000 in
   let create := role_binding_create 30000 in
   let st1 := after_process get st in
   let out := role_binding_task j st in
   (code (answer get st) = Some 0 ->
      out.1 = Ok tt /\ invoked st out.2 = [get]
      /\ titles out.2 = annotated j "...it already exist." (titles st))
   /\ (code (answer get st) <> Some 0 ->
       invoked st out.2 = [get; create]
       /\ out.1 = (if execa_failed (answer create st1)
                   then Throw (ExecaError (answer create st1)) else Ok tt)
       /\ titles out.2 = (if execa_failed (answer create st1) then titles st
                          else annotated j "...done." (titles st))))
  /\ (let get := service_account_get 30000 in
      let create := service_account_create 120000 in
      let st1 := after_process get st in
      let out := service_account_task j st in
      (code (answer get st) = Some 0 ->
         out.1 = Ok tt /\ invoked st out.2 = [get]
         /\ titles out.2 = annotated j "...it already exist." (titles st))
      /\ (code (answer get st) <> Some 0 ->
          invoked st out.2 = [get; create]
          /\ out.1 = (if execa_failed (answer create st1)
                      then Throw (ExecaError (answer create st1)) else Ok tt)
          /\ titles out.2 = (if execa_failed (answer create st1) then titles st
                             else annotated j "...done." (titles st)))).
Proof.
  split; intros get create st1 out; subst out st1 create get;
    unfold role_binding_task, service_account_task, tillerRoleBindingExist,
      tillerServiceAccountExist, createTillerRoleBinding, createTillerServiceAccount,
      role_binding_get, service_account_get, role_binding_create, service_account_create,
      execa, execa_v, bind, invoked; simpl;
    rewrite run_process_keep; simpl; (split; intros Hc).
  - apply code_is_0_true in Hc. rewrite Hc. simpl.
    repeat split. rewrite events_set_titles. by rewrite events_one.
  - apply code_is_0_false in Hc. rewrite Hc. simpl.
    rewrite run_process_reject.
    match goal with |- context [execa_failed ?r] => destruct (execa_failed r) end;
      simpl; (split; [|split; reflexivity]);
      rewrite ?events_set_titles, events_two; reflexivity.
  - apply code_is_0_true in Hc. rewrite Hc. simpl.
    repeat split. rewrite events_set_titles. by rewrite events_one.
  - apply code_is_0_false in Hc. rewrite Hc. simpl.
    rewrite run_process_reject.
    match goal with |- context [execa_failed ?r] => destruct (execa_failed r) end;
      simpl; (split; [|split; reflexivity]);
      rewrite ?events_set_titles, events_two; reflexivity.
Qed.

Ltac occurs_between a b := exists a, b; rewrite ?append_assoc; reflexivity.

(** X6. [helm init] succeeds exactly when it neither timed out nor exited
    with another code than 0. Otherwise [createTillerService] throws an
    [Error] of its own, never the error of [execa]; the message names the
    command line, the standard error and the standard output, and its kind:
    [E_TIMEOUT] when the command timed out, whatever its exit code, and
    [E_COMMAND_FAILED] otherwise, with the code as [execa] reports it: the
    exit code in decimal, the name of the error (such as [ENOENT]) when the
    process could not be started, or [null]. *)
Theorem tiller_init_outcome (t : Z) st :
  let init := tiller_init t in
  let r := answer init st in
  let out := createTillerService t st in
  out.2 = after_process init st
  /\ (out.1 = Ok tt <-> timedOut r = false /\ code r = Some 0)
  /\ (timedOut r = true ->
      exists message, out.1 = Throw (Error message)
        /\ occurs "error: E_TIMEOUT" message
        /\ occurs (pretty t +:+ "ms") message
        /\ occurs (cmd r) message /\ occurs (stderr r) message /\ occurs (stdout r) message)
  /\ (timedOut r = false -> code r <> Some 0 ->
      exists message, out.1 = Throw (Error message)
        /\ occurs "error: E_COMMAND_FAILED" message
        /\ (forall n, result_code r = Exited n ->
              occurs ("failed with return code " +:+ pretty n +:+ nl) message)
        /\ (forall name, result_code r = CodeName name ->
              occurs ("failed with return code " +:+ name +:+ nl) message)
        /\ (result_code r = NoCode ->
              occurs ("failed with return code null" +:+ nl) message)
        /\ occurs (cmd r) message /\ occurs (stderr r) message /\ occurs (stdout r) message).
Proof.
  intros init r out. subst out r init.
  unfold createTillerService, execa, execa_v, bind, tiller_init. simpl.
  rewrite run_process_keep.
  match goal with |- context [answer ?i st] => set (r := answer i st) end.
  destruct (timedOut r) eqn:Ht; simpl.
  - split; [reflexivity|]. split; [split; [discriminate|intros [? _]; discriminate]|].
    split; [|discriminate]. intros _. eexists. split; [reflexivity|].
    repeat split.
    + occurs_between ("Command " +:+ dquote +:+ cmd r +:+ dquote +:+ " timed out after "
                      +:+ pretty t +:+ "ms" +:+ nl +:+ "stderr: " +:+ stderr r +:+ nl
                      +:+ "stdout: " +:+ stdout r +:+ nl) "".
    + occurs_between ("Command " +:+ dquote +:+ cmd r +:+ dquote +:+ " timed out after ")
                     (nl +:+ "stderr: " +:+ stderr r +:+ nl
                      +:+ "stdout: " +:+ stdout r +:+ nl +:+ "error: E_TIMEOUT").
    + occurs_between ("Command " +:+ dquote)
                     (dquote +:+ " timed out after " +:+ pretty t +:+ "ms" +:+ nl
                      +:+ "stderr: " +:+ stderr r +:+ nl
                      +:+ "stdout: " +:+ stdout r +:+ nl +:+ "error: E_TIMEOUT").
    + occurs_between ("Command " +:+ dquote +:+ cmd r +:+ dquote +:+ " timed out after "
                      +:+ pretty t +:+ "ms" +:+ nl +:+ "stderr: ")
                     (nl +:+ "stdout: " +:+ stdout r +:+ nl +:+ "error: E_TIMEOUT").
    + occurs_between ("Command " +:+ dquote +:+ cmd r +:+ dquote +:+ " timed out after "
                      +:+ pretty t +:+ "ms" +:+ nl +:+ "stderr: " +:+ stderr r +:+ nl
                      +:+ "stdout: ")
                     (nl +:+ "error: E_TIMEOUT").
  - destruct (code_is_0 r) eqn:Hc; simpl.
    + apply code_is_0_true in Hc.
      split; [reflexivity|]. split; [by split|]. split; [discriminate|]. by intros _ ?.
    + apply code_is_0_false in Hc.
      split; [reflexivity|]. split; [split; [discriminate|by intros [_ ?]]|].
      split; [discriminate|]. intros _ _. eexists. split; [reflexivity|].
      repeat split.
      * occurs_between ("Command " +:+ dquote +:+ cmd r +:+ dquote
                        +:+ " failed with return code " +:+ code_text (result_code r) +:+ nl
                        +:+ "stderr: " +:+ stderr r +:+ nl
                        +:+ "stdout: " +:+ stdout r +:+ nl) "".
      * intros n Hn. rewrite Hn.
        occurs_between ("Command " +:+ dquote +:+ cmd r +:+ dquote +:+ " ")
                       ("stderr: " +:+ stderr r +:+ nl
                        +:+ "stdout: " +:+ stdout r +:+ nl +:+ "error: E_COMMAND_FAILED").
      * intros name Hn. rewrite Hn.
        occurs_between ("Command " +:+ dquote +:+ cmd r +:+ dquote +:+ " ")
                       ("stderr: " +:+ stderr r +:+ nl
                        +:+ "stdout: " +:+ stdout r +:+ nl +:+ "error: E_COMMAND_FAILED").
      * intros Hn. rewrite Hn.
        occurs_between ("Command " +:+ dquote +:+ cmd r +:+ dquote +:+ " ")
                       ("stderr: " +:+ stderr r +:+ nl
                        +:+ "stdout: " +:+ stdout r +:+ nl +:+ "error: E_COMMAND_FAILED").
      * occurs_between ("Command " +:+ dquote)
                       (dquote +:+ " failed with return code " +:+ code_text (result_code r) +:+ nl
                        +:+ "stderr: " +:+ stderr r +:+ nl
                        +:+ "stdout: " +:+ stdout r +:+ nl +:+ "error: E_COMMAND_FAILED").
      * occurs_between ("Command " +:+ dquote +:+ cmd r +:+ dquote
                        +:+ " failed with return code " +:+ code_text (result_code r) +:+ nl
                        +:+ "stderr: ")
                       (nl +:+ "stdout: " +:+ stdout r +:+ nl +:+ "error: E_COMMAND_FAILED").
      * occurs_between ("Command " +:+ dquote +:+ cmd r +:+ dquote
                        +:+ " failed with return code " +:+ code_text (result_code r) +:+ nl
                        +:+ "stderr: " +:+ stderr r +:+ nl +:+ "stdout: ")
                       (nl +:+ "error: E_COMMAND_FAILED").
Qed.

Lemma createTillerService_state (t : Z) st :
  (createTillerService t st).2 = after_process (tiller_init t) st.
Proof.
  unfold createTillerService, execa, execa_v, bind, tiller_init. simpl.
  rewrite run_process_keep.
  match goal with |- context [timedOut ?r] => destruct (timedOut r) end; [reflexivity|].
  match goal with |- context [code_is_0 ?r] => destruct (code_is_0 r) end; reflexivity.
Qed.

(** X7. The Tiller service is initialised only when its read command did not
    exit with 0. When it did, [helm init] is not run. Otherwise [helm init]
    runs once, and the task ends as [createTillerService] does: marked done
    when it succeeded, with its title unchanged when it threw. *)
Theorem init_only_when_absent (j : nat) st :
  let get := service_get 30000 in
  let init := tiller_init 120000 in
  let st1 := after_process get st in
  let out := service_task j st in
  (code (answer get st) = Some 0 ->
     out.1 = Ok tt /\ invoked st out.2 = [get]
     /\ titles out.2 = annotated j "...it already exist." (titles st))
  /\ (code (answer get st) <> Some 0 ->
      invoked st out.2 = [get; init]
      /\ out.1 = (createTillerService 120000 st1).1
      /\ titles out.2 = (match out.1 with
                         | Ok _ => annotated j "...done." (titles st)
                         | Throw _ => titles st
                         end)).
Proof.
  intros get init st1 out. subst out st1 init get.
  unfold service_task, tillerServiceExist, execa, execa_v, bind, service_get. simpl.
  rewrite run_process_keep. split; intros Hc.
  - apply code_is_0_true in Hc. rewrite Hc. simpl.
    repeat split. unfold invoked. rewrite events_set_titles. by rewrite events_one.
  - apply code_is_0_false in Hc. rewrite Hc. simpl.
    match goal with |- context [createTillerService 120000 ?s] =>
      pose proof (createTillerService_state 120000 s) as Hst;
      destruct (createTillerService 120000 s) as [[[]|e] st2]
    end; simpl in *; subst st2;
      (split; [|split; reflexivity]); unfold invoked;
      rewrite ?events_set_titles; by rewrite events_two.
Qed.

(** X8. [createTillerRBAC] reads the manifest before it runs anything: when
    the manifest cannot be read it throws the error of the read and no process
    is started; when it is read, one shell command is run, which echoes the
    content of the manifest into [kubectl apply], and a failure of that command
    is thrown. *)
Theorem rbac_needs_manifest (templatesPath : string) (t : Z) st :
  let yamlPath := path_join templatesPath "/kubernetes/helm/che/tiller-rbac.yaml" in
  let out := createTillerRBAC templatesPath t st in
  (forall e, readFileSync yamlPath (world st) = Throw e ->
     out.1 = Throw e /\ invoked st out.2 = [] /\ world out.2 = world st)
  /\ (forall yamlContent, readFileSync yamlPath (world st) = Ok yamlContent ->
        let apply := rbac_invocation yamlContent t in
        invoked st out.2 = [apply]
        /\ out.1 = (if execa_failed (answer apply st) then Throw (ExecaError (answer apply st))
                    else Ok tt)).
Proof.
  intros yamlPath out. subst out.
  unfold createTillerRBAC, bind, call, execa_shell, rbac_invocation.
  fold yamlPath. simpl. split.
  - intros e Hread. rewrite Hread. simpl. repeat split. by new_invoked (@nil (Invocation * CommandResult)).
  - intros yamlContent Hread. rewrite Hread. simpl.
    rewrite run_process_reject.
    match goal with |- context [answer ?i (set_world (world st) st)] =>
      change (answer i (set_world (world st) st)) with (answer i st);
      destruct (execa_failed (answer i st)); simpl; (split; [|reflexivity]);
      by new_invoked [(i, answer i st)]
    end.
Qed.

(** X9. A failure of staging stops the pipeline before the deployment. When
    the destination directory cannot be created, the preparing task throws
    that error: no copy is started and no process is run. When the dependency
    update fails, its error is thrown and the upgrade command is never run. *)
Theorem staging_failure_stops_pipeline flags cacheDir st :
  let destDir := chart_destDir cacheDir in
  let rest := drop 7 (startTasks flags cacheDir) in
  let update := dependencies_invocation cacheDir 120000 in
  (forall e w, mkdirp destDir (world st) = (Throw e, w) ->
     run_from 7 rest st = (Throw e, set_world w st))
  /\ (forall w, mkdirp destDir (world st) = (Ok tt, w) ->
        execa_failed (answer update (set_world w st)) = true ->
        (run_from 7 rest st).1 = Throw (ExecaError (answer update (set_world w st)))
        /\ invoked st (run_from 7 rest st).2 = [update]).
Proof.
  intros destDir rest update. subst rest. simpl drop. split.
  - intros e w Hmk. simpl. unfold run_step. simpl.
    unfold prepare_task, prepareCheHelmChart, bind, call. fold destDir.
    rewrite Hmk. reflexivity.
  - intros w Hmk Hfail. simpl. unfold run_step. simpl.
    unfold prepare_task, prepareCheHelmChart, dependencies_task,
      updateCheHelmChartDependencies, execa_shell, bind, call, ncp, append_title.
    fold destDir. rewrite Hmk. simpl.
    rewrite run_process_reject.
    match goal with |- context [execa_failed (answer ?i ?s)] =>
      change (answer i s) with (answer update (set_world w st)) end.
    rewrite Hfail. simpl. split; [reflexivity|].
    by new_invoked [(update, answer update (set_world w st))].
Qed.

(** X10. Without [helm] on the path the pipeline stops at its first task with
    [E_REQUISITE_NOT_FOUND]: no process is run, the world and the context are
    as before, no copy is started and no title is annotated. *)
Theorem helm_missing_stops_pipeline flags cacheDir st :
  commandExists_sync "helm" (world st) = false ->
  run_tasks (startTasks flags cacheDir) st
  = (Throw (CLIError "E_REQUISITE_NOT_FOUND"),
     set_titles (step_title <$> startTasks flags cacheDir) st).
Proof.
  intros Hmissing. unfold run_tasks. simpl. unfold bind, run_step. simpl.
  unfold verify_helm_task. simpl. rewrite Hmissing. reflexivity.
Qed.

(** X11. With the TLS flag off the two TLS tasks do nothing at all, the context
    at the end of a run is the context at its start, and the upgrade command
    does not depend on the context. *)
Theorem tls_off flags cacheDir :
  tls flags = false ->
  (forall (i j : nat) s st,
     (i = 1 \/ i = 2)%nat -> startTasks flags cacheDir !! i = Some s ->
     run_step j s st = (Ok tt, st))
  /\ (forall st, ctx (run_tasks (startTasks flags cacheDir) st).2 = ctx st)
  /\ (forall email email' destDir,
        upgrade_command email flags destDir = upgrade_command email' flags destDir).
Proof.
  intros Hoff. split; [|split].
  - intros i j s st [-> | ->] [= <-]; unfold run_step; simpl; by rewrite Hoff.
  - intros st. unfold run_tasks.
    set (st0 := set_titles _ st). change (ctx st) with (ctx st0).
    apply keeps_ctx_run_from. apply Forall_forall. intros s Hin j.
    apply list_elem_of_lookup in Hin as [i Hi].
    destruct (decide (i = 1%nat)) as [->|Hne].
    + injection Hi as <-. unfold run_step. simpl. rewrite Hoff. apply keeps_ctx_ret.
    + by apply (keeps_ctx_other_steps flags cacheDir i s).
  - intros email email' destDir. unfold upgrade_command, setOptions. by rewrite Hoff.
Qed.

(** X12. The TLS secret task runs no process and starts no copy. It succeeds
    exactly when the secret exists and holds a contact address; then that
    address is stored under [tlsEmail] and the title is annotated. When the
    secret is missing the task throws before it reads the secret; when the
    secret holds no address it throws after reading it; in both cases the
    context and the titles are untouched. *)
Theorem tls_secret_outcome (j : nat) st :
  let found := secretExist "che-tls" (world st) in
  let read := getSecret "che-tls" found.2 in
  let out := tls_secret_task j st in
  trace out.2 = trace st /\ pending out.2 = pending st
  /\ (out.1 = Ok tt <-> found.1 = Ok true /\ exists email, read.1 = Ok (Some email))
  /\ (forall email, found.1 = Ok true -> read.1 = Ok (Some email) ->
        ctx out.2 = <["tlsEmail" := email]> (ctx st)
        /\ titles out.2 = annotated j "...che-tls secret found." (titles st))
  /\ (found.1 = Ok false ->
        out = (Throw (Error tls_secret_missing), set_world found.2 st))
  /\ (found.1 = Ok true -> read.1 = Ok None ->
        out = (Throw (Error tls_email_missing), set_world read.2 st)).
Proof.
  intros found read out. subst out read found.
  unfold tls_secret_task, bind, call, throw, ctx_set, append_title. simpl.
  destruct (secretExist "che-tls" (world st)) as [[b|e] w1]; simpl;
    [destruct b; simpl;
       [destruct (getSecret "che-tls" w1) as [[[email|]|e] w2]; simpl|]|];
    (split; [reflexivity|]); (split; [reflexivity|]);
    (split; [|split; [|split]]);
    try discriminate; try (intros; discriminate); try done.
  - split; [|done]. intros _. split; [done|by exists email].
  - intros email' _ [= <-]. by split.
  - split; [discriminate|]. intros [_ [email Hemail]]. discriminate.
  - split; [discriminate|]. intros [_ [email Hemail]]. discriminate.
  - split; [discriminate|]. intros [Hfound _]. discriminate.
  - split; [discriminate|]. intros [Hfound _]. discriminate.
Qed.

(** ** The titles of the tasks *)

Create HintDb titles_frame discriminated.

Lemma text_then_nothing (u : string) : u +:+ "" = u.
Proof. induction u as [|a u IH]; [reflexivity|]. rewrite append_cons. by rewrite IH. Qed.

Lemma titles_extend_refl (l : list string) : titles_extend l l.
Proof.
  unfold titles_extend. induction l as [|t l IH]; constructor; [|exact IH].
  exists "". by rewrite text_then_nothing.
Qed.

Lemma titles_extend_trans (l1 l2 l3 : list string) :
  titles_extend l1 l2 -> titles_extend l2 l3 -> titles_extend l1 l3.
Proof.
  unfold titles_extend. intros H12. revert l3.
  induction H12 as [|t1 t2 l1 l2 [suffix ->] _ IH]; intros l3 H23.
  - inversion H23. constructor.
  - inversion H23 as [|? t3 ? l3' [suffix' ->] Hrest]; subst.
    constructor; [|by apply IH].
    exists (suffix +:+ suffix'). apply append_assoc.
Qed.

Lemma titles_extend_annotated (i : nat) (suffix : string) (l : list string) :
  titles_extend l (annotated i suffix l).
Proof.
  unfold titles_extend, annotated. revert i.
  induction l as [|t l IH]; intros i; [constructor|].
  destruct i as [|i]; simpl.
  - constructor; [by exists suffix|apply titles_extend_refl].
  - constructor; [|apply IH]. exists "". by rewrite text_then_nothing.
Qed.

Lemma keeps_titles_same {A} (m : M A) :
  (forall st, titles (m st).2 = titles st) -> keeps_titles m.
Proof. intros Hm st. rewrite Hm. apply titles_extend_refl. Qed.

Lemma keeps_titles_ret {A} (a : A) : keeps_titles (W:=W) (ret a).
Proof. by apply keeps_titles_same. Qed.

Lemma keeps_titles_throw {A} e : keeps_titles (W:=W) (A:=A) (throw e).
Proof. by apply keeps_titles_same. Qed.

Lemma keeps_titles_lift {A} (res : Result A) : keeps_titles (W:=W) (lift res).
Proof. by apply keeps_titles_same. Qed.

Lemma keeps_titles_call {A} (f : W -> Result A * W) : keeps_titles (call f).
Proof.
  apply keeps_titles_same. intros st. unfold call. by destruct (f (world st)).
Qed.

Lemma keeps_titles_ctx_get key : keeps_titles (W:=W) (ctx_get key).
Proof. by apply keeps_titles_same. Qed.

Lemma keeps_titles_ctx_set key v : keeps_titles (W:=W) (ctx_set key v).
Proof. by apply keeps_titles_same. Qed.

Lemma keeps_titles_ncp source dest : keeps_titles (W:=W) (ncp source dest).
Proof. by apply keeps_titles_same. Qed.

Lemma keeps_titles_run_process inv rej : keeps_titles (run_process inv rej).
Proof.
  apply keeps_titles_same. intros st. unfold run_process.
  destruct (spawn inv (world st)) as [res w]. by destruct (rej && execa_failed res).
Qed.

Lemma keeps_titles_append_title i suffix : keeps_titles (W:=W) (append_title i suffix).
Proof. intros st. apply titles_extend_annotated. Qed.

Lemma keeps_titles_bind {A B} (m : M A) (k : A -> M B) :
  keeps_titles m -> (forall a, keeps_titles (k a)) -> keeps_titles (bind m k).
Proof.
  intros Hm Hk st. unfold bind. specialize (Hm st).
  destruct (m st) as [[a|e] st']; simpl in *; [|exact Hm].
  apply (titles_extend_trans _ (titles st')); [exact Hm|apply Hk].
Qed.

Lemma keeps_titles_if {A} (b : bool) (m1 m2 : M A) :
  keeps_titles m1 -> keeps_titles m2 -> keeps_titles (if b then m1 else m2).
Proof. destruct b; auto. Qed.

#[local] Hint Resolve keeps_titles_ret keeps_titles_throw keeps_titles_lift
  keeps_titles_call keeps_titles_ctx_get keeps_titles_ctx_set keeps_titles_ncp
  keeps_titles_run_process keeps_titles_append_title : titles_frame.

Ltac frame_titles :=
  repeat first
    [ progress auto with titles_frame
    | apply keeps_titles_bind; [|intros ?]
    | apply keeps_titles_if
    | match goal with
      | |- keeps_titles (match ?x with _ => _ end) => destruct x
      end ].

Lemma keeps_titles_verify_helm_task i : keeps_titles (verify_helm_task i).
Proof.
  apply keeps_titles_same. intros st. unfold verify_helm_task.
  by destruct (commandExists_sync "helm" (world st)).
Qed.

Lemma keeps_titles_upgradeCheHelmChart flags cacheDir t :
  keeps_titles (upgradeCheHelmChart flags cacheDir t).
Proof.
  unfold upgradeCheHelmChart, purgeHelmChart, execa_shell, execa, execa_v. frame_titles.
Qed.

Lemma keeps_titles_steps flags cacheDir :
  Forall (fun s : @Step W => forall i, keeps_titles (run_step i s))
    (startTasks flags cacheDir).
Proof.
  unfold startTasks.
  repeat first
    [ apply Forall_nil_2
    | apply Forall_cons; split;
      [ intros i; unfold run_step; simpl; try apply keeps_titles_if;
        try apply keeps_titles_ret;
        unfold tls_secret_task, cert_manager_task, role_binding_task,
          service_account_task, rbac_task, service_task, prepare_task,
          dependencies_task, deploy_task, tillerRoleBindingExist,
          createTillerRoleBinding, tillerServiceAccountExist,
          createTillerServiceAccount, createTillerRBAC, tillerServiceExist,
          createTillerService, prepareCheHelmChart, updateCheHelmChartDependencies,
          execa_shell, execa, execa_v;
        solve [ apply keeps_titles_verify_helm_task
              | apply keeps_titles_bind;
                [apply keeps_titles_upgradeCheHelmChart | intros ?; frame_titles]
              | frame_titles ]
      | ] ].
Qed.

Lemma keeps_titles_run_from steps :
  Forall (fun s : @Step W => forall i, keeps_titles (run_step i s)) steps ->
  forall i, keeps_titles (run_from i steps).
Proof.
  induction 1 as [|s steps Hs _ IH]; intros i; simpl.
  - apply keeps_titles_ret.
  - apply keeps_titles_bind; [apply Hs | intros _; apply IH].
Qed.

(** X13. Titles are only ever added to. However a run of the pipeline goes,
    it ends with one title per task, in the order of the tasks, and each of them
    is the title the task was declared with followed by what the run
    added. *)
Theorem titles_only_grow flags cacheDir st :
  let final := titles (run_tasks (startTasks flags cacheDir) st).2 in
  titles_extend (step_title <$> startTasks flags cacheDir) final
  /\ length final = 10%nat.
Proof.
  intros final. subst final.
  assert (Hgrow : titles_extend (step_title <$> startTasks flags cacheDir)
                    (titles (run_tasks (startTasks flags cacheDir) st).2)).
  { unfold run_tasks.
    exact (keeps_titles_run_from _ (keeps_titles_steps flags cacheDir) 0%nat
             (set_titles (step_title <$> startTasks flags cacheDir) st)). }
  split; [exact Hgrow|].
  apply Forall2_length in Hgrow. rewrite <- Hgrow. reflexivity.
Qed.

(** ** What the deployment depends on *)

(** X14. The deployment reads nothing of the state but the world and the
    contact address of the context: started in two states with the same world
    and the same value under [tlsEmail], whatever else the context, the titles
    and the earlier processes are, it returns the same result, runs the same
    processes with the same answers and leaves the same world. *)
Theorem deployment_reads_only_tls_email flags cacheDir t (st st' : @PState W) :
  world st = world st' ->
  ctx st !! "tlsEmail" = ctx st' !! "tlsEmail" ->
  let out := upgradeCheHelmChart flags cacheDir t st in
  let out' := upgradeCheHelmChart flags cacheDir t st' in
  out.1 = out'.1 /\ events st out.2 = events st' out'.2 /\ world out.2 = world out'.2.
Proof.
  intros Hw Hctx out out'. subst out out'.
  assert (Hup : upgrade_invocation flags cacheDir t st' = upgrade_invocation flags cacheDir t st)
    by (unfold upgrade_invocation; by rewrite Hctx).
  set (up := upgrade_invocation flags cacheDir t st) in *.
  set (hist := history_invocation flags t).
  assert (Hans : forall inv (s1 s2 : @PState W), world s1 = world s2 ->
                   answer inv s1 = answer inv s2 /\
                   world (after_process inv s1) = world (after_process inv s2)).
  { intros inv s1 s2 Hs. unfold answer, after_process. simpl. by rewrite Hs. }
  destruct (Hans up st st' Hw) as [Ha1 Hw1].
  destruct (Hans hist _ _ Hw1) as [Ha2 Hw2].
  destruct (decide (code (answer up st) = Some 0)) as [H1|H1].
  { rewrite (upgrade_success flags cacheDir t st H1).
    rewrite (upgrade_success flags cacheDir t st'); rewrite Hup; [|by rewrite <- Ha1].
    fold up. simpl. rewrite !events_one, Ha1. by repeat split. }
  assert (H1' : code (answer (upgrade_invocation flags cacheDir t st') st') <> Some 0)
    by (rewrite Hup; fold up; by rewrite <- Ha1).
  destruct (decide (code (answer hist (after_process up st)) = Some 0)) as [H2|H2]; cycle 1.
  { rewrite (upgrade_history_failed flags cacheDir t st H1 H2).
    assert (H2' : code (answer (history_invocation flags t)
                          (after_process (upgrade_invocation flags cacheDir t st') st'))
                  <> Some 0) by (rewrite Hup; fold up hist; by rewrite <- Ha2).
    rewrite (upgrade_history_failed flags cacheDir t st' H1' H2').
    rewrite Hup, <- Hctx. fold up hist. simpl. rewrite !events_two, Ha1, Ha2.
    by repeat split. }
  assert (H2' : code (answer (history_invocation flags t)
                        (after_process (upgrade_invocation flags cacheDir t st') st'))
                = Some 0) by (rewrite Hup; fold up hist; by rewrite <- Ha2).
  destruct (JSON_parse (stdout (answer hist (after_process up st)))) as [err|v] eqn:Hp.
  { assert (Hp' : JSON_parse (stdout (answer (history_invocation flags t)
                     (after_process (upgrade_invocation flags cacheDir t st') st')))
                  = inl err) by (rewrite Hup; fold up hist; by rewrite <- Ha2).
    rewrite (upgrade_history_unparsed flags cacheDir t st err H1 H2 Hp).
    rewrite (upgrade_history_unparsed flags cacheDir t st' err H1' H2' Hp').
    rewrite Hup. fold up hist. simpl. rewrite !events_two, Ha1, Ha2. by repeat split. }
  assert (Hp' : JSON_parse (stdout (answer (history_invocation flags t)
                   (after_process (upgrade_invocation flags cacheDir t st') st')))
                = inr v) by (rewrite Hup; fold up hist; by rewrite <- Ha2).
  destruct (choose_remedy v) as [a|e] eqn:Hr; cycle 1.
  { rewrite (events_no_remedy flags cacheDir t st v e H1 H2 Hp Hr).
    rewrite (events_no_remedy flags cacheDir t st' v e H1' H2' Hp' Hr).
    rewrite (upgrade_no_remedy flags cacheDir t st v e H1 H2 Hp Hr).
    rewrite (upgrade_no_remedy flags cacheDir t st' v e H1' H2' Hp' Hr).
    rewrite Hup. fold up hist. simpl. rewrite Ha1, Ha2. by repeat split. }
  rewrite (events_remedy flags cacheDir t st v a H1 H2 Hp Hr).
  rewrite (events_remedy flags cacheDir t st' v a H1' H2' Hp' Hr).
  rewrite (upgrade_remedy flags cacheDir t st v a H1 H2 Hp Hr).
  rewrite (upgrade_remedy flags cacheDir t st' v a H1' H2' Hp' Hr).
  rewrite Hup. fold up hist.
  set (rem := remedy_invocation flags t a).
  destruct (Hans rem _ _ Hw2) as [Ha3 Hw3].
  destruct (Hans up _ _ Hw3) as [Ha4 Hw4].
  rewrite <- Ha1, <- Ha2, <- Ha3, <- Ha4.
  destruct (remedy_rejects a _); simpl; [by repeat split|].
  destruct (execa_failed _); by repeat split.
Qed.

(** X15. With the TLS flag on, the TLS prerequisites are checked before
    anything is done to the cluster: when the secret is missing, when it holds
    no contact address, or when the cert-manager API is not registered, the
    pipeline throws the matching error and not one process has been run. *)
Theorem tls_prerequisites_first flags cacheDir st :
  let found := secretExist "che-tls" (world st) in
  let read := getSecret "che-tls" found.2 in
  let api := apiVersionExist "certmanager.k8s.io" read.2 in
  let out := run_tasks (startTasks flags cacheDir) st in
  tls flags = true ->
  commandExists_sync "helm" (world st) = true ->
  (found.1 = Ok false ->
     out.1 = Throw (Error tls_secret_missing) /\ trace out.2 = trace st)
  /\ (found.1 = Ok true -> read.1 = Ok None ->
        out.1 = Throw (Error tls_email_missing) /\ trace out.2 = trace st)
  /\ (found.1 = Ok true -> (exists email, read.1 = Ok (Some email)) -> api.1 = Ok false ->
        out.1 = Throw (Error cert_manager_missing) /\ trace out.2 = trace st).
Proof.
  intros found read api out Htls Hhelm. subst out api read found.
  set (st0 := set_titles (step_title <$> startTasks flags cacheDir) st).
  assert (Hout : run_tasks (startTasks flags cacheDir) st =
    match secretExist "che-tls" (world st) with
    | (Ok true, w1) =>
        match getSecret "che-tls" w1 with
        | (Ok (Some email), w2) =>
            match apiVersionExist "certmanager.k8s.io" w2 with
            | (Ok false, w3) =>
                (Throw (Error cert_manager_missing),
                 set_world w3 (set_titles (annotated 1 "...che-tls secret found." (titles st0))
                                 (set_ctx (<["tlsEmail" := email]> (ctx st0))
                                    (set_world w2 (set_world w1 st0)))))
            | _ => run_tasks (startTasks flags cacheDir) st
            end
        | (Ok None, w2) => (Throw (Error tls_email_missing), set_world w2 (set_world w1 st0))
        | _ => run_tasks (startTasks flags cacheDir) st
        end
    | (Ok false, w1) => (Throw (Error tls_secret_missing), set_world w1 st0)
    | _ => run_tasks (startTasks flags cacheDir) st
    end).
  { destruct (secretExist "che-tls" (world st)) as [[[]|e] w1] eqn:Hs; [|..|reflexivity].
    - destruct (getSecret "che-tls" w1) as [[[email|]|e] w2] eqn:Hg; [|..|reflexivity].
      + destruct (apiVersionExist "certmanager.k8s.io" w2) as [[[]|e] w3] eqn:Ha;
          [reflexivity| |reflexivity].
        unfold run_tasks. fold st0. simpl run_from. unfold bind, run_step. simpl.
        unfold verify_helm_task. simpl. rewrite Hhelm, Htls.
        unfold tls_secret_task, bind, call, throw, ctx_set, append_title. simpl.
        rewrite Hs. simpl. rewrite Hg. simpl.
        unfold cert_manager_task, bind, call, throw. simpl. rewrite Ha. reflexivity.
      + unfold run_tasks. fold st0. simpl run_from. unfold bind, run_step. simpl.
        unfold verify_helm_task. simpl. rewrite Hhelm, Htls.
        unfold tls_secret_task, bind, call, throw, ctx_set, append_title. simpl.
        rewrite Hs. simpl. rewrite Hg. reflexivity.
    - unfold run_tasks. fold st0. simpl run_from. unfold bind, run_step. simpl.
      unfold verify_helm_task. simpl. rewrite Hhelm, Htls.
      unfold tls_secret_task, bind, call, throw, ctx_set, append_title. simpl.
      rewrite Hs. reflexivity. }
  split; [|split].
  - intros Hfound. rewrite Hout.
    destruct (secretExist "che-tls" (world st)) as [[[]|e] w1]; try discriminate.
    by split.
  - intros Hfound Hread. rewrite Hout.
    destruct (secretExist "che-tls" (world st)) as [[[]|e] w1]; try discriminate.
    simpl in Hread.
    destruct (getSecret "che-tls" w1) as [[[email|]|e] w2]; try discriminate.
    by split.
  - intros Hfound [email Hread] Hapi. rewrite Hout.
    destruct (secretExist "che-tls" (world st)) as [[[]|e] w1]; try discriminate.
    simpl in Hread, Hapi.
    destruct (getSecret "che-tls" w1) as [[[email'|]|e] w2]; try discriminate.
    simpl in Hapi.
    destruct (apiVersionExist "certmanager.k8s.io" w2) as [[[]|e] w3]; try discriminate.
    by split.
Qed.

End Properties.

(** * The properties on the scripted world *)

(** ** A run of the whole pipeline *)

(** Without TLS, on a cluster where Tiller is in place: the two TLS tasks are
    skipped, nothing is created, and the copy of the chart is still pending
    when the pipeline ends. *)
Example pipeline_without_tls :
  let st := initial (test_world []) in
  let out := run_tasks (startTasks test_flags test_cache) st in
  out.1 = Ok tt
  /\ invoked st out.2
     = [ role_binding_get 30000;
         service_account_get 30000;
         ExecaShell ("echo " +:+ dquote +:+ "kind: ClusterRoleBinding" +:+ dquote
                     +:+ " | kubectl apply -f -") 30000;
         service_get 30000;
         ExecaShell (dependencies_command (chart_destDir test_cache)) 120000;
         upgrade_invocation test_flags test_cache 120000 st ]
  /\ titles out.2
     = [ "Verify if helm is installed";
         "Check for TLS secret prerequisites";
         "Check for cert-manager";
         "Create Tiller Role Binding...it already exist.";
         "Create Tiller Service Account...it already exist.";
         "Create Tiller RBAC";
         "Create Tiller Service...it already exist.";
         "Preparing Che Helm Chart...done.";
         "Updating Helm Chart dependencies...done.";
         "Deploying Che Helm Chart...done." ]
  /\ pending out.2 = [mkNcp (chart_srcDir test_flags) (chart_destDir test_cache)]
  /\ ctx out.2 = ∅.
Proof. vm_compute. repeat split; reflexivity. Qed.

(** With TLS, the contact address of the secret reaches the upgrade command. *)
Example pipeline_with_tls :
  let st := initial (tls_world "admin@example.com" []) in
  let out := run_tasks (startTasks tls_flags test_cache) st in
  out.1 = Ok tt
  /\ ctx out.2 = {[ "tlsEmail" := "admin@example.com" ]}
  /\ last (invoked st out.2)
     = Some (ExecaShell "helm upgrade --install che --force --namespace che --set global.ingressDomain=192.168.99.100.nip.io --set global.cheDomain=192.168.99.100.nip.io --set global.tls.email='admin@example.com' --set cheImage=eclipse/che-server:nightly --set global.cheWorkspacesNamespace=che --set che.workspace.devfileRegistryUrl=https://che-devfile-registry.openshift.io/ --set che.workspace.pluginRegistryUrl=https://che-plugin-registry.openshift.io/v3 -f /home/user/.cache/chectl/templates/kubernetes/helm/che/values/multi-user.yaml -f /home/user/.cache/chectl/templates/kubernetes/helm/che/values/tls.yaml /home/user/.cache/chectl/templates/kubernetes/helm/che/" 120000).
Proof. vm_compute. repeat split; reflexivity. Qed.


(** C1, as stated, fails: the history is not empty and the revision of its
    first entry is not 1, yet no rollback runs. For the history [[null]] the
    deployment stops on the [TypeError] of reading the revision, after the
    upgrade and the history query alone. *)
Lemma null_entry_stops_recovery :
  let st := failed_upgrade history_null_entry in
  let out := @upgradeCheHelmChart TestWorld test_platform shapes_runtime
               test_flags test_cache 120000 st in
  @JSON_parse shapes_runtime history_null_entry = inr (JArray [JNull])
  /\ out.1 = Throw (TypeError "Cannot read property 'revision' of null")
  /\ length (invoked st out.2) = 2%nat
  /\ (forall revision,
        Execa "helm" [JString "rollback"; JString "che"; revision] 120000
        ∉ invoked st out.2)
  /\ Execa "helm" [JString "delete"; JString "che"; JString "--purge"] 30000
     ∉ invoked st out.2.
Proof.
  intros st out.
  assert (Hshell : Forall (fun inv => match inv with
                                      | ExecaShell _ _ => True
                                      | Execa _ _ _ => False
                                      end) (invoked st out.2))
    by (vm_compute; repeat constructor).
  rewrite Forall_forall in Hshell.
  split; [reflexivity|]. split; [reflexivity|]. split; [reflexivity|]. split.
  - intros revision Hin. exact (Hshell _ Hin).
  - intros Hin. exact (Hshell _ Hin).
Qed.

Lemma recovery_decision_witness :
  (Execa "helm" [JString "delete"; JString "che"; JString "--purge"] 30000
     ∈ invoked (failed_upgrade history_first)
         (upgradeCheHelmChart test_flags test_cache 120000 (failed_upgrade history_first)).2)
  /\ (Execa "helm" [JString "rollback"; JString "che"; JString "3"] 120000
        ∈ invoked (failed_upgrade history_three)
            (upgradeCheHelmChart test_flags test_cache 120000 (failed_upgrade history_three)).2)
  /\ (Execa "helm" [JString "delete"; JString "che"; JString "--purge"] 30000
        ∉ invoked (failed_upgrade history_three)
            (upgradeCheHelmChart test_flags test_cache 120000 (failed_upgrade history_three)).2).
Proof.
  split; [|split].
  - destruct (recovery_decision test_flags test_cache 120000 (failed_upgrade history_first)
                [entry "1"]) as [[_ Hpurge] _];
      [vm_compute; discriminate | reflexivity | reflexivity |].
    apply Hpurge. exists (entry "1"), []. split; reflexivity.
  - destruct (recovery_decision test_flags test_cache 120000 (failed_upgrade history_three)
                [entry "3"; entry "2"; entry "1"]) as (_ & _ & Hrollback & _);
      [vm_compute; discriminate | reflexivity | reflexivity |].
    destruct (Hrollback (entry "3") [entry "2"; entry "1"] eq_refl)
      as (revision & Hrev & Hthen); [discriminate | discriminate |].
    injection Hrev as <-. apply Hthen. discriminate.
  - destruct (recovery_decision test_flags test_cache 120000 (failed_upgrade history_three)
                [entry "3"; entry "2"; entry "1"]) as (_ & _ & Hrollback & _);
      [vm_compute; discriminate | reflexivity | reflexivity |].
    destruct (Hrollback (entry "3") [entry "2"; entry "1"] eq_refl)
      as (revision & Hrev & Hthen); [discriminate | discriminate |].
    injection Hrev as <-. apply Hthen. discriminate.
Defined.

Lemma empty_history_aborts_witness :
  (upgradeCheHelmChart test_flags test_cache 120000 (failed_upgrade history_empty)).1
  = Throw (TypeError "Cannot read property 'revision' of undefined").
Proof.
  apply (empty_history_aborts test_flags test_cache 120000 (failed_upgrade history_empty));
    [vm_compute; discriminate | reflexivity | reflexivity].
Defined.

(** C3. What the code does for a namespace other than [che]: the upgrade
    installs the release named [che] into the namespace, while the history
    query and the purge are given the namespace as the name of the release. *)
Theorem recovery_names_namespace :
  invoked (failed_upgrade history_first)
    (upgradeCheHelmChart namespace_flags test_cache 120000 (failed_upgrade history_first)).2
  = [ ExecaShell "helm upgrade --install che --force --namespace eclipse-che --set global.ingressDomain=192.168.99.100.nip.io  --set cheImage=eclipse/che-server:nightly --set global.cheWorkspacesNamespace=eclipse-che --set che.workspace.devfileRegistryUrl=https://che-devfile-registry.openshift.io/ --set che.workspace.pluginRegistryUrl=https://che-plugin-registry.openshift.io/v3   /home/user/.cache/chectl/templates/kubernetes/helm/che/" 120000;
      ExecaShell "helm history eclipse-che --output json" 120000;
      Execa "helm" [JString "delete"; JString "eclipse-che"; JString "--purge"] 30000;
      ExecaShell "helm upgrade --install che --force --namespace eclipse-che --set global.ingressDomain=192.168.99.100.nip.io  --set cheImage=eclipse/che-server:nightly --set global.cheWorkspacesNamespace=eclipse-che --set che.workspace.devfileRegistryUrl=https://che-devfile-registry.openshift.io/ --set che.workspace.pluginRegistryUrl=https://che-plugin-registry.openshift.io/v3   /home/user/.cache/chectl/templates/kubernetes/helm/che/" 120000 ].
Proof. vm_compute. reflexivity. Qed.

Lemma retry_once_witness :
  (upgradeCheHelmChart test_flags test_cache 120000 (failed_upgrade history_first)).1 = Ok tt
  /\ (upgradeCheHelmChart test_flags test_cache 120000 failed_retry).1
     = Throw (ExecaError (exit_with 1 "" "Error: UPGRADE FAILED again")).
Proof.
  split.
  - destruct (retry_once test_flags test_cache 120000 (failed_upgrade history_first) 2
                (Execa "helm" [JString "delete"; JString "che"; JString "--purge"] 30000)
                success) as (r1 & r2 & r4 & Hev & _ & Hfine);
      [reflexivity | left; reflexivity |].
    assert (r4 = success) as ->
      by (unfold success; vm_compute in Hev; congruence).
    apply Hfine; reflexivity.
  - destruct (retry_once test_flags test_cache 120000 failed_retry 2
                (Execa "helm" [JString "delete"; JString "che"; JString "--purge"] 30000)
                success) as (r1 & r2 & r4 & Hev & Hfail & _);
      [reflexivity | left; reflexivity |].
    assert (r4 = exit_with 1 "" "Error: UPGRADE FAILED again") as ->
      by (unfold exit_with; vm_compute in Hev; congruence).
    apply Hfail. right. vm_compute. discriminate.
Defined.

(** C5, as stated, fails: an output that is valid JSON of another shape is
    not reported as a parse error. For a history output that is a JSON text
    between quotes the deployment runs [helm rollback che undefined] and the
    second upgrade, and ends well. *)
Lemma wrong_shape_is_no_parse_error :
  let st := failed_upgrade history_message in
  let out := @upgradeCheHelmChart TestWorld test_platform shapes_runtime
               test_flags test_cache 120000 st in
  @JSON_parse shapes_runtime history_message = inr (JString "release: not found")
  /\ out.1 = Ok tt
  /\ invoked st out.2 !! 2%nat
     = Some (Execa "helm" [JString "rollback"; JString "che"; JUndefined] 120000)
  /\ length (invoked st out.2) = 4%nat.
Proof. intros st out. vm_compute. repeat split; reflexivity. Qed.

Lemma history_query_fatal_witness :
  (upgradeCheHelmChart test_flags test_cache 120000 failed_history).1
  = Throw (Error ("Unable to execute helm command "
                  +:+ upgrade_command None test_flags (chart_destDir test_cache)
                  +:+ " / Error: UPGRADE FAILED"))
  /\ (upgradeCheHelmChart test_flags test_cache 120000 (failed_upgrade "Error: timeout")).1
     = Throw (Error "Unable to grab helm history:SyntaxError: Unexpected token in JSON at position 0")
  /\ (@upgradeCheHelmChart TestWorld test_platform shapes_runtime
        test_flags test_cache 120000 (failed_upgrade history_message)).1
     <> Throw (Error "Unable to grab helm history:SyntaxError: Unexpected token in JSON at position 0").
Proof.
  split; [|split].
  - destruct (history_query_fatal test_flags test_cache 120000 failed_history)
      as [Hfailed _]; [vm_compute; discriminate|].
    apply Hfailed. vm_compute; discriminate.
  - destruct (history_query_fatal test_flags test_cache 120000
                (failed_upgrade "Error: timeout")) as (_ & Hparse & _);
      [vm_compute; discriminate|].
    apply (Hparse _ eq_refl eq_refl).
  - destruct (@history_query_fatal TestWorld test_platform shapes_runtime
                test_flags test_cache 120000 (failed_upgrade history_message))
      as (_ & _ & Hshape); [vm_compute; discriminate|].
    apply (Hshape (JString "release: not found")); reflexivity.
Defined.

Lemma context_written_once_witness :
  let st := initial (tls_world "admin@example.com" []) in
  ctx (run_step 9 (mkStep "Deploying Che Helm Chart" true (deploy_task tls_flags test_cache))
         st).2 = ctx st
  /\ ctx (run_tasks (startTasks tls_flags test_cache) st).2 !! "domain" = ctx st !! "domain".
Proof.
  intros st.
  destruct (context_written_once (W:=TestWorld) tls_flags test_cache) as (Hother & _ & Hrun & _).
  split.
  - apply (Hother 9%nat); [reflexivity | discriminate].
  - apply (Hrun st). discriminate.
Defined.

Lemma copy_error_not_propagated_witness :
  (prepare_task test_flags test_cache 7 (initial broken_copy_world)).1 = Ok tt.
Proof.
  pose (st := initial broken_copy_world).
  pose (w1 := (mkdirp (chart_destDir test_cache) (world st)).2).
  pose (w2 := (ncp_copy (chart_srcDir test_flags) (chart_destDir test_cache) w1).2).
  apply (copy_error_not_propagated test_flags test_cache 7 st w1 w2
           (External "ENOENT: no such file or directory")); reflexivity.
Defined.

(** C6, as stated, fails: with the multi-user flag off, the image text of this
    configuration brings the multi-user values-file flag into the command. *)
Lemma flag_text_from_configuration :
  ~ (occurs (multi_user_values (chart_destDir test_cache))
       (upgrade_command None carrying_flags (chart_destDir test_cache))
     <-> multiuser carrying_flags = true).
Proof.
  intros [Honly _].
  assert (multiuser carrying_flags = true) as Hon; [|discriminate Hon].
  apply Honly. apply occurs_b_sound. vm_compute. reflexivity.
Qed.

Lemma upgrade_command_flags_witness :
  let st := before_deployment "admin@example.com" in
  let command := upgrade_command (ctx st !! "tlsEmail") tls_flags (chart_destDir test_cache) in
  occurs (tls_values (chart_destDir test_cache)) command
  /\ occurs (tls_overrides tls_flags "admin@example.com") command
  /\ multiuser tls_flags = true
  /\ ctx st !! "tlsEmail" = Some "admin@example.com".
Proof.
  intros st command.
  destruct (upgrade_command_flags (W:=TestWorld) tls_flags test_cache st)
    as (_ & Hmulti & Htls & Hmulti_only & _ & Hemail).
  destruct (Htls eq_refl) as [Hvalues Hoverrides].
  split; [exact Hvalues|]. split; [exact Hoverrides|]. split.
  - apply Hmulti_only; [|apply Hmulti; reflexivity].
    intros text Hin. apply not_occurs.
    unfold config_texts in Hin. rewrite !elem_of_cons, elem_of_nil in Hin.
    destruct Hin as [->|[->|[->|[->|[->|[->|[->|[]]]]]]]]; vm_compute; reflexivity.
  - destruct (Hemail eq_refl (initial (tls_world "admin@example.com" []))) as (email & Hread & Hctx);
      [vm_compute; reflexivity|].
    rewrite Hctx. vm_compute in Hread. congruence.
Defined.

(** ** The scripted tools write where they are told *)

Lemma append_empty (u : string) : u +:+ "" = u.
Proof. induction u as [|a u IH]; [reflexivity|]. rewrite append_cons. by rewrite IH. Qed.

Lemma strip_prefix_append d rel : strip_prefix d (d +:+ rel) = Some rel.
Proof.
  induction d as [|a d IH]; [reflexivity|].
  rewrite append_cons. simpl. by rewrite Ascii.eqb_refl.
Qed.

Lemma not_under d p : strip_prefix d p = None -> ~ under d p.
Proof. intros Hnone [rel ->]. by rewrite strip_prefix_append in Hnone. Qed.

Lemma copy_tree_frame source dest (fs : gmap string fsnode) p :
  ~ under dest p -> copy_tree source dest fs !! p = fs !! p.
Proof.
  intros Hout. unfold copy_tree.
  induction (map_to_list fs) as [|[q n] l IH]; [reflexivity|]. simpl.
  destruct (strip_prefix source q) as [rel|]; [|exact IH].
  rewrite lookup_insert_ne; [exact IH|].
  intros <-. apply Hout. by exists rel.
Qed.

Lemma test_writes_where_told : WritesWhereTold TestWorld.
Proof.
  split.
  - intros d w p Hnot. simpl. destruct (files w !! d) eqn:Hd; [reflexivity|].
    apply lookup_insert_ne. intros ->. apply Hnot. exists "". by rewrite append_empty.
  - intros source dest w p Hout. simpl. unfold test_ncp_copy.
    destruct (copy_error w); [reflexivity|]. simpl. by apply copy_tree_frame.
  - intros dir t w p Hout. simpl.
    apply lookup_insert_ne. intros Heq. apply Hout.
    exists "requirements.lock". symmetry. exact Heq.
Qed.

#[export] Existing Instance test_writes_where_told.

(** C8, as stated, fails: when the templates given to the installer are the
    ones staged in the cache, the dependency update writes its lock file into
    the source templates directory, inside the source chart directory. *)
Lemma staging_writes_into_source :
  let st := initial cache_templates_world in
  let st' := (updateCheHelmChartDependencies test_cache 120000 st).2 in
  let p := "/home/user/.cache/chectl/templates/kubernetes/helm/che/requirements.lock" in
  rtc (staging_step cache_templates_flags test_cache) st st'
  /\ under (templates cache_templates_flags) p
  /\ under (chart_srcDir cache_templates_flags) p
  /\ fs_read (world st) p = None
  /\ fs_read (world st') p = Some (File "dependencies: []").
Proof.
  intros st st' p. split; [|split; [|split; [|split]]].
  - apply rtc_once. apply staging_update.
  - by exists "/kubernetes/helm/che/requirements.lock".
  - by exists "requirements.lock".
  - reflexivity.
  - reflexivity.
Qed.

Lemma staging_keeps_source_witness :
  let st := initial (test_world []) in
  let st1 := (prepareCheHelmChart test_flags test_cache st).2 in
  let st2 := (updateCheHelmChartDependencies test_cache 120000 st1).2 in
  let st3 := (complete_copy (mkNcp (chart_srcDir test_flags) (chart_destDir test_cache)) st2).2 in
  fs_read (world st3) "/opt/chectl/templates/kubernetes/helm/che/Chart.yaml"
  = Some (File "name: che")
  /\ fs_read (world st3) "/opt/chectl/templates/kubernetes/helm/che/tiller-rbac.yaml"
     = Some (File "kind: ClusterRoleBinding").
Proof.
  intros st st1 st2 st3.
  assert (rtc (staging_step test_flags test_cache) st st3) as Hsteps.
  { eapply rtc_l; [apply staging_prepare|].
    eapply rtc_l; [apply staging_update|].
    apply rtc_once. apply staging_copy. }
  destruct (staging_keeps_source (W:=TestWorld) test_flags test_cache)
    as (_ & _ & Htemplates & Hchart).
  split.
  - rewrite (Htemplates ltac:(apply not_under; reflexivity) ltac:(apply not_under; reflexivity)
               st st3 Hsteps).
    + reflexivity.
    + by exists "/kubernetes/helm/che/Chart.yaml".
  - rewrite (Hchart ltac:(apply not_under; reflexivity) ltac:(apply not_under; reflexivity)
               st st3 Hsteps).
    + reflexivity.
    + by exists "tiller-rbac.yaml".
Defined.

(** * The further properties on the scripted world *)

Lemma deployment_success_witness :
  (upgradeCheHelmChart test_flags test_cache 120000 (initial (test_world []))).1 = Ok tt.
Proof.
  apply (deployment_success test_flags test_cache 120000 (initial (test_world []))).
  reflexivity.
Defined.

Lemma rollback_failure_is_fatal_witness :
  invoked failed_rollback (upgradeCheHelmChart test_flags test_cache 120000 failed_rollback).2
  = [ upgrade_invocation test_flags test_cache 120000 failed_rollback;
      history_invocation test_flags 120000;
      rollback_invocation test_flags (JString "3") 120000 ].
Proof.
  apply (rollback_failure_is_fatal test_flags test_cache 120000 failed_rollback
           (entry "3") [entry "2"; entry "1"] (JString "3"));
    [vm_compute; discriminate | reflexivity | reflexivity | reflexivity
    | discriminate | reflexivity].
Defined.

Lemma no_revision_aborts_witness :
  is_TypeError
    (@upgradeCheHelmChart TestWorld test_platform null_runtime test_flags test_cache 120000
       (failed_upgrade "null")).1.
Proof.
  destruct (@no_revision_aborts TestWorld test_platform null_runtime test_flags test_cache
              120000 (failed_upgrade "null") JNull) as [[_ Hthrows] _];
    [vm_compute; discriminate | reflexivity | reflexivity |].
  apply Hthrows. reflexivity.
Defined.

Lemma create_only_when_absent_witness :
  let st := initial (test_world [exit_with 1 "" "Error: not found"]) in
  invoked st (role_binding_task 3 st).2 = [role_binding_get 30000; role_binding_create 30000]
  /\ (service_account_task 4 (initial (test_world []))).1 = Ok tt.
Proof.
  intros st.
  destruct (create_only_when_absent (W:=TestWorld) 3 st) as [[_ Habsent] _].
  destruct (create_only_when_absent (W:=TestWorld) 4 (initial (test_world [])))
    as [_ [Hexists _]].
  split.
  - apply Habsent. vm_compute. discriminate.
  - apply Hexists. reflexivity.
Defined.

Lemma tiller_init_outcome_witness :
  (exists message,
     (createTillerService 120000 (initial (test_world [init_timed_out]))).1
     = Throw (Error message)
     /\ occurs "error: E_TIMEOUT" message)
  /\ (exists message,
        (createTillerService 120000 (initial (test_world [init_not_started]))).1
        = Throw (Error message)
        /\ occurs ("failed with return code ENOENT" +:+ nl) message).
Proof.
  split.
  - destruct (tiller_init_outcome (W:=TestWorld) 120000
                (initial (test_world [init_timed_out]))) as (_ & _ & Htimeout & _).
    destruct (Htimeout eq_refl) as (message & Hthrown & Hkind & _).
    exists message. split; [exact Hthrown | exact Hkind].
  - destruct (tiller_init_outcome (W:=TestWorld) 120000
                (initial (test_world [init_not_started]))) as (_ & _ & _ & Hfailed).
    destruct Hfailed as (message & Hthrown & _ & _ & Hname & _);
      [reflexivity | vm_compute; discriminate |].
    exists message. split; [exact Hthrown | exact (Hname "ENOENT" eq_refl)].
Defined.

Lemma init_only_when_absent_witness :
  let st := initial (test_world [exit_with 1 "" "Error: not found"; init_timed_out]) in
  invoked st (service_task 6 st).2 = [service_get 30000; tiller_init 120000]
  /\ titles (service_task 6 st).2 = titles st.
Proof.
  intros st.
  destruct (init_only_when_absent (W:=TestWorld) 6 st) as [_ Habsent].
  destruct Habsent as (Hran & _ & Htitles); [vm_compute; discriminate|].
  split; [exact Hran | exact Htitles].
Defined.

Lemma rbac_needs_manifest_witness :
  invoked (initial no_manifest_world)
    (createTillerRBAC "/opt/chectl/templates" 30000 (initial no_manifest_world)).2 = []
  /\ invoked (initial (test_world []))
       (createTillerRBAC "/opt/chectl/templates" 30000 (initial (test_world []))).2
     = [rbac_invocation "kind: ClusterRoleBinding" 30000].
Proof.
  destruct (rbac_needs_manifest (W:=TestWorld) "/opt/chectl/templates" 30000
              (initial no_manifest_world)) as [Hmissing _].
  destruct (rbac_needs_manifest (W:=TestWorld) "/opt/chectl/templates" 30000
              (initial (test_world []))) as [_ Hread].
  split.
  - apply (Hmissing (External "ENOENT")). reflexivity.
  - apply (Hread "kind: ClusterRoleBinding"). reflexivity.
Defined.

Lemma staging_failure_stops_pipeline_witness :
  let st := initial (test_world [exit_with 1 "" "Error: no repository definition"]) in
  invoked st (run_from 7 (drop 7 (startTasks test_flags test_cache)) st).2
  = [dependencies_invocation test_cache 120000].
Proof.
  intros st.
  destruct (staging_failure_stops_pipeline (W:=TestWorld) test_flags test_cache st)
    as [_ Hupdate].
  apply (Hupdate (mkdirp (chart_destDir test_cache) (world st)).2); reflexivity.
Defined.

Lemma helm_missing_stops_pipeline_witness :
  (run_tasks (startTasks test_flags test_cache) (initial no_helm_world)).1
  = Throw (CLIError "E_REQUISITE_NOT_FOUND")
  /\ trace (run_tasks (startTasks test_flags test_cache) (initial no_helm_world)).2 = [].
Proof.
  rewrite (helm_missing_stops_pipeline (W:=TestWorld) test_flags test_cache
             (initial no_helm_world)); [split; reflexivity | reflexivity].
Defined.

Lemma tls_off_witness :
  ctx (run_tasks (startTasks test_flags test_cache)
         (initial (tls_world "admin@example.com" []))).2 = ∅
  /\ upgrade_command (Some "admin@example.com") test_flags (chart_destDir test_cache)
     = upgrade_command None test_flags (chart_destDir test_cache).
Proof.
  destruct (tls_off (W:=TestWorld) test_flags test_cache eq_refl) as (_ & Hctx & Hcommand).
  split; [apply Hctx | apply Hcommand].
Defined.

Lemma tls_secret_outcome_witness :
  (tls_secret_task 1 (initial (test_world []))).1 = Throw (Error tls_secret_missing)
  /\ ctx (tls_secret_task 1 (initial (tls_world "admin@example.com" []))).2
     = {[ "tlsEmail" := "admin@example.com" ]}.
Proof.
  destruct (tls_secret_outcome (W:=TestWorld) 1 (initial (test_world [])))
    as (_ & _ & _ & _ & Hmissing & _).
  destruct (tls_secret_outcome (W:=TestWorld) 1 (initial (tls_world "admin@example.com" [])))
    as (_ & _ & _ & Hstored & _).
  split.
  - by rewrite (Hmissing eq_refl).
  - by destruct (Hstored "admin@example.com" eq_refl eq_refl) as [-> _].
Defined.

Lemma deployment_reads_only_tls_email_witness :
  (upgradeCheHelmChart test_flags test_cache 120000
     (mkState (test_world []) {[ "domain" := "example.com" ]} ["Deploying"] [] [])).1
  = (upgradeCheHelmChart test_flags test_cache 120000 (initial (test_world []))).1.
Proof.
  apply (deployment_reads_only_tls_email (W:=TestWorld) test_flags test_cache 120000);
    reflexivity.
Defined.

Lemma tls_prerequisites_first_witness :
  (run_tasks (startTasks tls_flags test_cache) (initial (test_world []))).1
  = Throw (Error tls_secret_missing).
Proof.
  destruct (tls_prerequisites_first (W:=TestWorld) tls_flags test_cache
              (initial (test_world []))) as [Hmissing _]; [reflexivity | reflexivity |].
  apply Hmissing. reflexivity.
Defined.
